(** * Keyboard navigation of a grid table: the navigation model

    A shallow embedding of [src/table/table-role/use-grid-navigation.ts]:
    the class [GridNavigationModel] (fields, [init], [destroy], [update],
    the [table] getter and the four event handlers) and the effects of
    [useGridNavigation].

    The handlers are written in a small monad that threads the model and
    the listener registry of the page, records every call that leaves the
    class (to the event, to the DOM, to [./utils]) in program order, and
    carries a thrown exception to the caller.  The primitives of [./utils]
    are not in the sources at hand.  A call to them is an entry of the call
    list.  The handlers come twice: as their own calls and writes give them
    ([onKeydown], [onMutation]), and with the focus events that the page
    raises while a move primitive runs ([onKeydown_live],
    [onMutation_live]). *)

From Stdlib Require Import ZArith List Bool String Lia.
Import ListNotations.
Local Open Scope Z_scope.

(** ** DOM vocabulary *)

(** A DOM node is known by its identity; [===] on nodes is [Nat.eqb]. *)
Definition Node := nat.
Definition HTMLTableElement := Node.
Definition ObserverId := nat.

Inductive EventType := focusin | focusout | keydown.

(** The three arrow functions of the model that are given to
    [addEventListener]. *)
Inductive Handler := OnFocusin | OnFocusout | OnKeydown.

(** The fields of a [KeyboardEvent] that [onKeydown] reads. *)
Record KeyboardEvent := {
  keyCode : Z;
  ctrlKey : bool;
  altKey : bool;
  shiftKey : bool;
  metaKey : bool
}.

Inductive MutationRecordType := attributes | characterData | childList.

Record MutationRecord := {
  type : MutationRecordType;
  removedNodes : list Node
}.

(** A JavaScript number as the deltas use it: an integer or one of
    [Number.NEGATIVE_INFINITY], [Number.POSITIVE_INFINITY]. *)
Inductive number := Num (z : Z) | NEGATIVE_INFINITY | POSITIVE_INFINITY.

Record Delta := { y : number; x : number }.

(** Modelled from the spec: the interface [FocusedCell] of [./interfaces],
    which is not part of the sources at hand.  The three fields are the ones
    the data model lists and the only ones this file's code reads. *)
Record FocusedCell := {
  element : Node;
  cellElement : Node;
  widget : bool
}.

(** The enum [KeyCode] of [internal/keycode] is not part of the sources at
    hand: its members are taken as a parameter.  [wf] says what an enum of
    key codes gives: positive codes, no two alike, none of them F2's 113. *)
Module KeyCode.
Record t := {
  up : Z;
  down : Z;
  left : Z;
  right : Z;
  pageUp : Z;
  pageDown : Z;
  home : Z;
  end_ : Z;
  enter : Z;
  escape : Z
}.

Definition codes (k : t) : list Z :=
  [up k; down k; left k; right k; pageUp k; pageDown k; home k; end_ k;
   enter k; escape k; 113].

Fixpoint distinct (l : list Z) : bool :=
  match l with
  | [] => true
  | a :: rest => negb (existsb (Z.eqb a) rest) && distinct rest
  end.

Definition wf (k : t) : bool :=
  forallb (Z.ltb 0) (codes k) && distinct (codes k).

(** The key codes of the DOM, for concrete runs. *)
Definition dom : t :=
  {| up := 38; down := 40; left := 37; right := 39;
     pageUp := 33; pageDown := 34; home := 36; end_ := 35;
     enter := 13; escape := 27 |}.
End KeyCode.

(** ** Calls that leave the class *)

Inductive Call :=
| PreventDefault
| MoveFocusBy (table : HTMLTableElement) (from : FocusedCell) (delta : Delta)
| MoveFocusIn (from : FocusedCell)
| UpdateTableIndices (table : HTMLTableElement) (cell : option FocusedCell)
| AddEventListener (target : HTMLTableElement) (type : EventType) (listener : Handler)
| RemoveEventListener (target : HTMLTableElement) (type : EventType) (listener : Handler)
| NewMutationObserver (observer : ObserverId)
| Observe (observer : ObserverId) (target : HTMLTableElement)
| Disconnect (observer : ObserverId).

(** ** The listener registry of the page

    What [addEventListener], [removeEventListener], [observe] and
    [disconnect] do to the page, as the DOM standard has it: a listener is
    registered once per (target, type, callback), removing one that is not
    registered does nothing, and [disconnect] stops every observation of the
    observer. *)
Definition Registration := (HTMLTableElement * EventType * Handler)%type.

Record Dom := {
  listeners : list Registration;
  observing : list (ObserverId * HTMLTableElement);
  nextObserver : ObserverId
}.

Definition EventType_eqb (a b : EventType) : bool :=
  match a, b with
  | focusin, focusin | focusout, focusout | keydown, keydown => true
  | _, _ => false
  end.

Definition Handler_eqb (a b : Handler) : bool :=
  match a, b with
  | OnFocusin, OnFocusin | OnFocusout, OnFocusout | OnKeydown, OnKeydown => true
  | _, _ => false
  end.

Definition Registration_eqb (a b : Registration) : bool :=
  let '(t1, e1, h1) := a in
  let '(t2, e2, h2) := b in
  Nat.eqb t1 t2 && EventType_eqb e1 e2 && Handler_eqb h1 h2.

Definition register (r : Registration) (d : Dom) : Dom :=
  {| listeners := if existsb (Registration_eqb r) (listeners d)
                  then listeners d else listeners d ++ [r];
     observing := observing d;
     nextObserver := nextObserver d |}.

Definition unregister (r : Registration) (d : Dom) : Dom :=
  {| listeners := filter (fun r' => negb (Registration_eqb r r')) (listeners d);
     observing := observing d;
     nextObserver := nextObserver d |}.

Definition allocObserver (d : Dom) : Dom :=
  {| listeners := listeners d;
     observing := observing d;
     nextObserver := S (nextObserver d) |}.

Definition startObserving (ob : ObserverId) (target : HTMLTableElement) (d : Dom) : Dom :=
  {| listeners := listeners d;
     observing :=
       if existsb (fun p => Nat.eqb (fst p) ob && Nat.eqb (snd p) target) (observing d)
       then observing d else observing d ++ [(ob, target)];
     nextObserver := nextObserver d |}.

Definition stopObserving (ob : ObserverId) (d : Dom) : Dom :=
  {| listeners := listeners d;
     observing := filter (fun p => negb (Nat.eqb (fst p) ob)) (observing d);
     nextObserver := nextObserver d |}.

(** ** The model *)

(** The closure held in [cleanup]: the empty function the field starts
    with, or the one [init] builds, which captures [this] and the observer
    of that [init]. *)
Inductive Cleanup :=
| cleanup_empty
| cleanup_of_init (mutationObserver : ObserverId).

Record GridNavigationModel := {
  _pageSize : Z;
  _table : option HTMLTableElement;
  prevFocusedCell : option FocusedCell;
  focusedCell : option FocusedCell;
  cleanup : Cleanup
}.

Definition new_GridNavigationModel : GridNavigationModel :=
  {| _pageSize := 0; _table := None;
     prevFocusedCell := None; focusedCell := None;
     cleanup := cleanup_empty |}.

Definition set_pageSize (v : Z) (m : GridNavigationModel) :=
  {| _pageSize := v; _table := _table m;
     prevFocusedCell := prevFocusedCell m; focusedCell := focusedCell m;
     cleanup := cleanup m |}.

Definition set_table (v : option HTMLTableElement) (m : GridNavigationModel) :=
  {| _pageSize := _pageSize m; _table := v;
     prevFocusedCell := prevFocusedCell m; focusedCell := focusedCell m;
     cleanup := cleanup m |}.

Definition set_prevFocusedCell (v : option FocusedCell) (m : GridNavigationModel) :=
  {| _pageSize := _pageSize m; _table := _table m;
     prevFocusedCell := v; focusedCell := focusedCell m;
     cleanup := cleanup m |}.

Definition set_focusedCell (v : option FocusedCell) (m : GridNavigationModel) :=
  {| _pageSize := _pageSize m; _table := _table m;
     prevFocusedCell := prevFocusedCell m; focusedCell := v;
     cleanup := cleanup m |}.

Definition set_cleanup (v : Cleanup) (m : GridNavigationModel) :=
  {| _pageSize := _pageSize m; _table := _table m;
     prevFocusedCell := prevFocusedCell m; focusedCell := focusedCell m;
     cleanup := v |}.

Record World := {
  this : GridNavigationModel;
  page : Dom
}.

Definition initial : World :=
  {| this := new_GridNavigationModel;
     page := {| listeners := []; observing := []; nextObserver := 0%nat |} |}.

(** ** The monad of the handlers *)

Inductive Completion (A : Type) :=
| Normal (a : A)
| Throw (message : string).
Arguments Normal {A} a.
Arguments Throw {A} message.

Record Outcome (A : Type) := {
  final : World;
  calls : list Call;
  completion : Completion A
}.
Arguments final {A} o.
Arguments calls {A} o.
Arguments completion {A} o.

Definition M (A : Type) := World -> Outcome A.

Definition ret {A} (a : A) : M A :=
  fun w => {| final := w; calls := []; completion := Normal a |}.

Definition bind {A B} (m : M A) (f : A -> M B) : M B :=
  fun w =>
    let r := m w in
    match completion r with
    | Normal a =>
        let r' := f a (final r) in
        {| final := final r'; calls := calls r ++ calls r';
           completion := completion r' |}
    | Throw e => {| final := final r; calls := calls r; completion := Throw e |}
    end.

Declare Scope model_scope.
Delimit Scope model_scope with model.
Notation "v <- m ;; k" := (bind m (fun v => k))
  (at level 61, m at next level, right associativity) : model_scope.
Notation "m ;; k" := (bind m (fun _ => k))
  (at level 61, right associativity) : model_scope.
Local Open Scope model_scope.

Definition throw {A} (message : string) : M A :=
  fun w => {| final := w; calls := []; completion := Throw message |}.

Definition getThis : M GridNavigationModel :=
  fun w => {| final := w; calls := []; completion := Normal (this w) |}.

Definition assign (f : GridNavigationModel -> GridNavigationModel) : M unit :=
  fun w => {| final := {| this := f (this w); page := page w |};
              calls := []; completion := Normal tt |}.

(** A call that leaves the class and changes the registry by [f]. *)
Definition external (c : Call) (f : Dom -> Dom) : M unit :=
  fun w => {| final := {| this := this w; page := f (page w) |};
              calls := [c]; completion := Normal tt |}.

Fixpoint forOf {A} (l : list A) (body : A -> M unit) : M unit :=
  match l with
  | [] => ret tt
  | a :: rest => body a ;; forOf rest body
  end.

Definition preventDefault : M unit := external PreventDefault id.

(** The two move primitives as calls only, without the page's answer; with
    it they are [moveFocusBy_live] and [moveFocusIn_live] below. *)
Definition moveFocusBy (table : HTMLTableElement) (from : FocusedCell) (delta : Delta) : M unit :=
  external (MoveFocusBy table from delta) id.

Definition moveFocusIn (from : FocusedCell) : M unit :=
  external (MoveFocusIn from) id.

Definition updateTableIndices (table : HTMLTableElement) (cell : option FocusedCell) : M unit :=
  external (UpdateTableIndices table cell) id.

Definition addEventListener (target : HTMLTableElement) (type : EventType) (listener : Handler) : M unit :=
  external (AddEventListener target type listener) (register (target, type, listener)).

Definition removeEventListener (target : HTMLTableElement) (type : EventType) (listener : Handler) : M unit :=
  external (RemoveEventListener target type listener) (unregister (target, type, listener)).

Definition newMutationObserver : M ObserverId :=
  fun w => {| final := {| this := this w; page := allocObserver (page w) |};
              calls := [NewMutationObserver (nextObserver (page w))];
              completion := Normal (nextObserver (page w)) |}.

Definition observe (ob : ObserverId) (target : HTMLTableElement) : M unit :=
  external (Observe ob target) (startObserving ob target).

Definition disconnect (ob : ObserverId) : M unit :=
  external (Disconnect ob) (stopObserving ob).

(** [a ?? b] on two cell slots. *)
Definition nullish (a b : option FocusedCell) : option FocusedCell :=
  match a with
  | Some c => Some c
  | None => b
  end.

Definition f2Code : Z := 113.

(** A focus event the page raises on the table. *)
Inductive FocusNotice (FocusEvent : Type) :=
| NoticeFocusout
| NoticeFocusin (event : FocusEvent).
Arguments NoticeFocusout {FocusEvent}.
Arguments NoticeFocusin {FocusEvent} event.

(** ** A small page for concrete runs

    Table 1 has a plain cell 10 and a widget cell 20 whose widget is node 21;
    node 2 is a row that holds both cells.  A focus event is known by its
    target. *)
Module Demo.
Definition plainCell : FocusedCell :=
  {| element := 10%nat; cellElement := 10%nat; widget := false |}.
Definition widgetCell : FocusedCell :=
  {| element := 20%nat; cellElement := 20%nat; widget := true |}.
Definition insideWidget : FocusedCell :=
  {| element := 21%nat; cellElement := 20%nat; widget := true |}.

Definition findFocusinCell (target : Node) : option FocusedCell :=
  if Nat.eqb target 10 then Some plainCell
  else if Nat.eqb target 20 then Some widgetCell
  else if Nat.eqb target 21 then Some insideWidget
  else None.

Definition containsOrEqual (a b : Node) : bool :=
  Nat.eqb a b
  || (Nat.eqb a 20 && Nat.eqb b 21)
  || (Nat.eqb a 2 && (Nat.eqb b 10 || Nat.eqb b 20 || Nat.eqb b 21)).


Definition attached : Dom :=
  {| listeners := [(1%nat, focusin, OnFocusin); (1%nat, focusout, OnFocusout);
                   (1%nat, keydown, OnKeydown)];
     observing := [(0%nat, 1%nat)];
     nextObserver := 1%nat |}.

(** The model bound to table 1 with a page size of 5, the focus on [at_]
    and the last focused cell [last]. *)
Definition world (at_ last : option FocusedCell) : World :=
  {| this := {| _pageSize := 5; _table := Some 1%nat;
                prevFocusedCell := last; focusedCell := at_;
                cleanup := cleanup_of_init 0%nat |};
     page := attached |}.

Definition atPlainCell : World := world (Some plainCell) (Some plainCell).
Definition atInsideWidget : World := world (Some insideWidget) (Some insideWidget).
Definition focusLeft : World := world None (Some plainCell).

(** The page knows the node that holds the focus.  A move by an offset
    lands on cell 20, a move into a cell on its widget 21; focusing the node
    that holds the focus already raises nothing. *)
Definition focusOf (active : Node) (c : Call) : Node * list (FocusNotice Node) :=
  match c with
  | MoveFocusBy _ _ _ =>
      if Nat.eqb active 20 then (active, [])
      else (20%nat, [NoticeFocusout; NoticeFocusin 20%nat])
  | MoveFocusIn _ =>
      if Nat.eqb active 21 then (active, [])
      else (21%nat, [NoticeFocusout; NoticeFocusin 21%nat])
  | _ => (active, [])
  end.

(** Cell 10 is removed twice over. *)
Definition removals : list MutationRecord :=
  [ {| type := childList; removedNodes := [10%nat] |};
    {| type := childList; removedNodes := [10%nat; 3%nat] |} ].

(** A link, node 11, inside the plain cell 10. *)
Definition linkInPlainCell : FocusedCell :=
  {| element := 11%nat; cellElement := 10%nat; widget := false |}.

(** The same model after [destroy]: nothing listens any more. *)
Definition detachedWorld : World :=
  {| this := {| _pageSize := 5; _table := Some 1%nat;
                prevFocusedCell := Some plainCell; focusedCell := Some plainCell;
                cleanup := cleanup_of_init 0%nat |};
     page := {| listeners := []; observing := []; nextObserver := 1%nat |} |}.

(** Row 2 and a stray node 3 are removed; an attribute changes on cell 10. *)
Definition batch : list MutationRecord :=
  [ {| type := childList; removedNodes := [2%nat; 3%nat] |};
    {| type := attributes; removedNodes := [10%nat] |} ].
End Demo.

(** A key pressed alone, and a key pressed with Ctrl and nothing else. *)
Definition pressed (k : Z) : KeyboardEvent :=
  {| keyCode := k; ctrlKey := false; altKey := false;
     shiftKey := false; metaKey := false |}.

Definition ctrlPressed (k : Z) : KeyboardEvent :=
  {| keyCode := k; ctrlKey := true; altKey := false;
     shiftKey := false; metaKey := false |}.

(** ** The class [GridNavigationModel] *)

Section GridNavigationModel.

(** What the class imports and this file does not have: the event a
    [focusin] listener receives and [findFocusinCell] of [./utils], which
    resolves it to a cell or to null; [containsOrEqual] of
    [internal/utils/dom]; the members of [KeyCode]. *)
Variable FocusEvent : Type.
Variable findFocusinCell : FocusEvent -> option FocusedCell.
Variable containsOrEqual : Node -> Node -> bool.
Variable keycode : KeyCode.t.

Definition invariantViolation : string :=
  "Invariant violation: GridNavigationModel is used before initialization."%string.

(** [private get table()] *)
Definition table : M HTMLTableElement :=
  m <- getThis ;;
  match _table m with
  | None => throw invariantViolation
  | Some t => ret t
  end.

(** [private get pageSize()] *)
Definition pageSize : M Z :=
  m <- getThis ;; ret (_pageSize m).

(** Running the closure held in [cleanup].  The closure of [init] reads
    [this.table] when it runs, not when it is built. *)
Definition runCleanup (c : Cleanup) : M unit :=
  match c with
  | cleanup_empty => ret tt
  | cleanup_of_init mutationObserver =>
      t <- table ;; removeEventListener t focusin OnFocusin ;;
      t <- table ;; removeEventListener t focusout OnFocusout ;;
      t <- table ;; removeEventListener t keydown OnKeydown ;;
      disconnect mutationObserver
  end.

Definition init (table0 : HTMLTableElement) : M unit :=
  assign (set_table (Some table0)) ;;
  t <- table ;; addEventListener t focusin OnFocusin ;;
  t <- table ;; addEventListener t focusout OnFocusout ;;
  t <- table ;; addEventListener t keydown OnKeydown ;;
  mutationObserver <- newMutationObserver ;;
  observe mutationObserver table0 ;;
  t <- table ;;
  m <- getThis ;;
  updateTableIndices t (nullish (focusedCell m) (prevFocusedCell m)) ;;
  assign (set_cleanup (cleanup_of_init mutationObserver)).

Definition destroy : M unit :=
  m <- getThis ;; runCleanup (cleanup m).

Definition update (pageSize0 : Z) : M unit :=
  assign (set_pageSize pageSize0).

Definition onFocusin (event : FocusEvent) : M unit :=
  match findFocusinCell event with
  | None => ret tt
  | Some cell =>
      assign (set_prevFocusedCell (Some cell)) ;;
      assign (set_focusedCell (Some cell)) ;;
      t <- table ;;
      updateTableIndices t (Some cell)
  end.

Definition onFocusout : M unit :=
  assign (set_focusedCell None).

(** Lines 125 to 203 of the source: what [onKeydown] does with the key it
    has settled on.  The [switch] compares with [===] case by case, in the
    order written; a [break] leaves it, and nothing follows it. *)
Definition keydownCommand (from : FocusedCell) (key : Z) : M unit :=
  let minExtreme := NEGATIVE_INFINITY in
  let maxExtreme := POSITIVE_INFINITY in
  if widget from && negb (Nat.eqb (element from) (cellElement from)) then
    if (key =? KeyCode.escape keycode) || (key =? f2Code) then
      preventDefault ;;
      t <- table ;; moveFocusBy t from {| y := Num 0; x := Num 0 |}
    else ret tt
  else if key =? KeyCode.up keycode then
    preventDefault ;;
    t <- table ;; moveFocusBy t from {| y := Num (-1); x := Num 0 |}
  else if key =? KeyCode.down keycode then
    preventDefault ;;
    t <- table ;; moveFocusBy t from {| y := Num 1; x := Num 0 |}
  else if key =? KeyCode.left keycode then
    preventDefault ;;
    t <- table ;; moveFocusBy t from {| y := Num 0; x := Num (-1) |}
  else if key =? KeyCode.right keycode then
    preventDefault ;;
    t <- table ;; moveFocusBy t from {| y := Num 0; x := Num 1 |}
  else if key =? KeyCode.pageUp keycode then
    preventDefault ;;
    t <- table ;; p <- pageSize ;;
    moveFocusBy t from {| y := Num (- p); x := Num 0 |}
  else if key =? KeyCode.pageDown keycode then
    preventDefault ;;
    t <- table ;; p <- pageSize ;;
    moveFocusBy t from {| y := Num p; x := Num 0 |}
  else if key =? KeyCode.home keycode then
    preventDefault ;;
    t <- table ;; moveFocusBy t from {| y := Num 0; x := minExtreme |}
  else if key =? KeyCode.end_ keycode then
    preventDefault ;;
    t <- table ;; moveFocusBy t from {| y := Num 0; x := maxExtreme |}
  else if key =? - KeyCode.home keycode then
    preventDefault ;;
    t <- table ;; moveFocusBy t from {| y := minExtreme; x := minExtreme |}
  else if key =? - KeyCode.end_ keycode then
    preventDefault ;;
    t <- table ;; moveFocusBy t from {| y := maxExtreme; x := maxExtreme |}
  else if key =? KeyCode.enter keycode then
    if Nat.eqb (element from) (cellElement from) then
      preventDefault ;; moveFocusIn from
    else ret tt
  else if key =? KeyCode.escape keycode then
    if negb (Nat.eqb (element from) (cellElement from)) then
      preventDefault ;;
      t <- table ;; moveFocusBy t from {| y := Num 0; x := Num 0 |}
    else ret tt
  else if key =? f2Code then
    preventDefault ;;
    if Nat.eqb (element from) (cellElement from) then moveFocusIn from
    else t <- table ;; moveFocusBy t from {| y := Num 0; x := Num 0 |}
  else ret tt.

Definition numModifiersPressed (event : KeyboardEvent) : Z :=
  let ctrl := if ctrlKey event then 1 else 0 in
  let alt := if altKey event then 1 else 0 in
  let shift := if shiftKey event then 1 else 0 in
  let meta := if metaKey event then 1 else 0 in
  ctrl + alt + shift + meta.

Definition onKeydown (event : KeyboardEvent) : M unit :=
  m <- getThis ;;
  match focusedCell m with
  | None => ret tt
  | Some from =>
      if (numModifiersPressed event =? 1) && ctrlKey event then
        keydownCommand from (- keyCode event)
      else if negb (numModifiersPressed event =? 0) then ret tt
      else keydownCommand from (keyCode event)
  end.

Definition nullPrevFocusedCell : string :=
  "TypeError: Cannot read properties of null (reading 'element')"%string.

(** The body of the inner loop of [onMutation]; [this.prevFocusedCell] is
    read anew at every removed node. *)
Definition onRemovedNode (removedNode : Node) : M unit :=
  m <- getThis ;;
  match prevFocusedCell m with
  | None => throw nullPrevFocusedCell
  | Some prev =>
      if containsOrEqual removedNode (element prev) then
        t <- table ;;
        m' <- getThis ;;
        match prevFocusedCell m' with
        | None => throw nullPrevFocusedCell
        | Some prev' => moveFocusBy t prev' {| y := Num 0; x := Num 0 |}
        end
      else ret tt
  end.

Definition onMutation (mutationRecords : list MutationRecord) : M unit :=
  m <- getThis ;;
  match prevFocusedCell m with
  | None => ret tt
  | Some _ =>
      forOf mutationRecords (fun record =>
        match type record with
        | childList => forOf (removedNodes record) onRemovedNode
        | _ => ret tt
        end) ;;
      t <- table ;;
      m' <- getThis ;;
      updateTableIndices t (nullish (focusedCell m') (prevFocusedCell m'))
  end.

(** ** The handlers with the page's answer to a move

    [moveFocusBy] and [moveFocusIn] apply native focus.  When the focus
    moves, the page raises [focusout] and [focusin] at once, and the
    listeners of the model run before the primitive returns: the code that
    called the primitive reads the focus slots as those listeners left them.

    What the page raises is not in the sources at hand.  It is taken as a
    parameter: [Env] is what the page knows (which node holds the focus,
    which cells there are), and [focusOf] tells, for a move the model asks
    for, what the page knows afterwards and which focus events it raises, in
    order.  A page that respects the registry raises none once the
    listeners are removed. *)
Variable Env : Type.
Variable focusOf : Env -> Call -> Env * list (FocusNotice FocusEvent).

(** The listener a focus event runs. *)
Definition notify (notice : FocusNotice FocusEvent) : M unit :=
  match notice with
  | NoticeFocusout => onFocusout
  | NoticeFocusin event => onFocusin event
  end.

(** The page runs the listener and keeps what it did; what a listener
    throws is reported by the page and does not reach the code that applied
    the focus. *)
Definition dispatchNotice (notice : FocusNotice FocusEvent) : M unit :=
  fun w =>
    {| final := final (notify notice w);
       calls := calls (notify notice w);
       completion := Normal tt |}.

Definition deliver (notices : list (FocusNotice FocusEvent)) : M unit :=
  forOf notices dispatchNotice.

(** Computations that also thread what the page knows. *)
Definition L (A : Type) := Env -> World -> Env * Outcome A.

Definition lift {A} (m : M A) : L A :=
  fun env w => (env, m w).

Definition retL {A} (a : A) : L A := lift (ret a).

Definition bindL {A B} (m : L A) (f : A -> L B) : L B :=
  fun env w =>
    let r := m env w in
    match completion (snd r) with
    | Normal a =>
        let r' := f a (fst r) (final (snd r)) in
        (fst r',
         {| final := final (snd r');
            calls := calls (snd r) ++ calls (snd r');
            completion := completion (snd r') |})
    | Throw e =>
        (fst r,
         {| final := final (snd r); calls := calls (snd r);
            completion := Throw e |})
    end.

Declare Scope live_scope.
Delimit Scope live_scope with live.
Notation "v <- m ;; k" := (bindL m (fun v => k))
  (at level 61, m at next level, right associativity) : live_scope.
Notation "m ;; k" := (bindL m (fun _ => k))
  (at level 61, right associativity) : live_scope.

Fixpoint forOfL {A} (l : list A) (body : A -> L unit) : L unit :=
  match l with
  | [] => retL tt
  | a :: rest => (body a ;; forOfL rest body)%live
  end.

(** A move primitive: the call, then the focus events the page raises for
    it, each run to its end before the primitive returns. *)
Definition applyFocus (c : Call) : L unit :=
  fun env w =>
    (fst (focusOf env c),
     {| final := final (deliver (snd (focusOf env c)) w);
        calls := c :: calls (deliver (snd (focusOf env c)) w);
        completion := Normal tt |}).

Definition moveFocusBy_live (table0 : HTMLTableElement) (from : FocusedCell)
    (delta : Delta) : L unit :=
  applyFocus (MoveFocusBy table0 from delta).

Definition moveFocusIn_live (from : FocusedCell) : L unit :=
  applyFocus (MoveFocusIn from).

(** Lines 125 to 203 of the source once more, with the primitives that
    apply the focus. *)
Definition keydownCommand_live (from : FocusedCell) (key : Z) : L unit :=
  (let minExtreme := NEGATIVE_INFINITY in
   let maxExtreme := POSITIVE_INFINITY in
   if widget from && negb (Nat.eqb (element from) (cellElement from)) then
     if (key =? KeyCode.escape keycode) || (key =? f2Code) then
       lift preventDefault ;;
       t <- lift table ;; moveFocusBy_live t from {| y := Num 0; x := Num 0 |}
     else retL tt
   else if key =? KeyCode.up keycode then
     lift preventDefault ;;
     t <- lift table ;; moveFocusBy_live t from {| y := Num (-1); x := Num 0 |}
   else if key =? KeyCode.down keycode then
     lift preventDefault ;;
     t <- lift table ;; moveFocusBy_live t from {| y := Num 1; x := Num 0 |}
   else if key =? KeyCode.left keycode then
     lift preventDefault ;;
     t <- lift table ;; moveFocusBy_live t from {| y := Num 0; x := Num (-1) |}
   else if key =? KeyCode.right keycode then
     lift preventDefault ;;
     t <- lift table ;; moveFocusBy_live t from {| y := Num 0; x := Num 1 |}
   else if key =? KeyCode.pageUp keycode then
     lift preventDefault ;;
     t <- lift table ;; p <- lift pageSize ;;
     moveFocusBy_live t from {| y := Num (- p); x := Num 0 |}
   else if key =? KeyCode.pageDown keycode then
     lift preventDefault ;;
     t <- lift table ;; p <- lift pageSize ;;
     moveFocusBy_live t from {| y := Num p; x := Num 0 |}
   else if key =? KeyCode.home keycode then
     lift preventDefault ;;
     t <- lift table ;; moveFocusBy_live t from {| y := Num 0; x := minExtreme |}
   else if key =? KeyCode.end_ keycode then
     lift preventDefault ;;
     t <- lift table ;; moveFocusBy_live t from {| y := Num 0; x := maxExtreme |}
   else if key =? - KeyCode.home keycode then
     lift preventDefault ;;
     t <- lift table ;;
     moveFocusBy_live t from {| y := minExtreme; x := minExtreme |}
   else if key =? - KeyCode.end_ keycode then
     lift preventDefault ;;
     t <- lift table ;;
     moveFocusBy_live t from {| y := maxExtreme; x := maxExtreme |}
   else if key =? KeyCode.enter keycode then
     if Nat.eqb (element from) (cellElement from) then
       lift preventDefault ;; moveFocusIn_live from
     else retL tt
   else if key =? KeyCode.escape keycode then
     if negb (Nat.eqb (element from) (cellElement from)) then
       lift preventDefault ;;
       t <- lift table ;; moveFocusBy_live t from {| y := Num 0; x := Num 0 |}
     else retL tt
   else if key =? f2Code then
     lift preventDefault ;;
     if Nat.eqb (element from) (cellElement from) then moveFocusIn_live from
     else t <- lift table ;; moveFocusBy_live t from {| y := Num 0; x := Num 0 |}
   else retL tt)%live.

Definition onKeydown_live (event : KeyboardEvent) : L unit :=
  (m <- lift getThis ;;
   match focusedCell m with
   | None => retL tt
   | Some from =>
       if (numModifiersPressed event =? 1) && ctrlKey event then
         keydownCommand_live from (- keyCode event)
       else if negb (numModifiersPressed event =? 0) then retL tt
       else keydownCommand_live from (keyCode event)
   end)%live.

(** The inner loop body and the handler of lines 206 to 223 once more: the
    two reads of [this.prevFocusedCell] at every removed node and the reads
    after the loops see what the focus listeners wrote during the moves
    before them. *)
Definition onRemovedNode_live (removedNode : Node) : L unit :=
  (m <- lift getThis ;;
   match prevFocusedCell m with
   | None => lift (throw nullPrevFocusedCell)
   | Some prev =>
       if containsOrEqual removedNode (element prev) then
         t <- lift table ;;
         m' <- lift getThis ;;
         match prevFocusedCell m' with
         | None => lift (throw nullPrevFocusedCell)
         | Some prev' => moveFocusBy_live t prev' {| y := Num 0; x := Num 0 |}
         end
       else retL tt
   end)%live.

Definition onMutation_live (mutationRecords : list MutationRecord) : L unit :=
  (m <- lift getThis ;;
   match prevFocusedCell m with
   | None => retL tt
   | Some _ =>
       forOfL mutationRecords (fun record =>
         match type record with
         | childList => forOfL (removedNodes record) onRemovedNode_live
         | _ => retL tt
         end) ;;
       t <- lift table ;;
       m' <- lift getThis ;;
       lift (updateTableIndices t (nullish (focusedCell m') (prevFocusedCell m')))
   end)%live.

(** ** The hook [useGridNavigation]

    The first effect on mount and its cleanup on unmount, the second effect
    whenever [pageSize] changes. *)
Definition mountEffect (tableRole : string) (getTable : option HTMLTableElement) : M unit :=
  if String.eqb tableRole "grid"%string then
    match getTable with
    | Some t => init t
    | None => ret tt
    end
  else ret tt.

Definition unmountEffect : M unit := destroy.

Definition pageSizeEffect (pageSize0 : Z) : M unit := update pageSize0.

(** ** Runs of the model

    What can happen to a model: the hook calls [init], [destroy] and
    [update]; the page delivers an event to a handler. *)
Inductive Input :=
| Init (table0 : HTMLTableElement)
| Destroy
| Update (pageSize0 : Z)
| Focusin (event : FocusEvent)
| Focusout
| Keydown (event : KeyboardEvent)
| Mutation (mutationRecords : list MutationRecord).

Definition handle (i : Input) : M unit :=
  match i with
  | Init table0 => init table0
  | Destroy => destroy
  | Update pageSize0 => update pageSize0
  | Focusin event => onFocusin event
  | Focusout => onFocusout
  | Keydown event => onKeydown event
  | Mutation mutationRecords => onMutation mutationRecords
  end.

Definition step (w : World) (i : Input) : World := final (handle i w).

Definition exec (w : World) (inputs : list Input) : World :=
  fold_left step inputs w.

Definition listens (h : Handler) (d : Dom) : bool :=
  existsb (fun r => Handler_eqb (snd r) h) (listeners d).

(** The page delivers an event only to a listener that is registered, and
    a mutation batch only to an observer that is observing. *)
Definition deliverable (i : Input) (w : World) : bool :=
  match i with
  | Focusin _ => listens OnFocusin (page w)
  | Focusout => listens OnFocusout (page w)
  | Keydown _ => listens OnKeydown (page w)
  | Mutation _ =>
      match observing (page w) with [] => false | _ :: _ => true end
  | _ => true
  end.

Inductive reachable : World -> Prop :=
| reachable_initial : reachable initial
| reachable_step w i :
    reachable w -> deliverable i w = true -> reachable (step w i).

(** A focus event that the model takes as the new focused cell. *)
Definition successfulFocus (i : Input) : bool :=
  match i with
  | Focusin event =>
      match findFocusinCell event with Some _ => true | None => false end
  | _ => false
  end.


(** ** Vocabulary of the statements *)

(** A handler run that does nothing at all. *)
Definition untouched (o : Outcome unit) (w : World) : Prop :=
  o = {| final := w; calls := []; completion := Normal tt |}.

(** A handler run that calls [preventDefault], then moves the focus by
    [delta] from [from], and leaves the world as it was. *)
Definition movesBy (o : Outcome unit) (w : World) (t : HTMLTableElement)
    (from : FocusedCell) (delta : Delta) : Prop :=
  o = {| final := w;
         calls := [PreventDefault; MoveFocusBy t from delta];
         completion := Normal tt |}.

(** A handler run that calls [preventDefault], then moves the focus into
    the widget of [from], and leaves the world as it was. *)
Definition movesIn (o : Outcome unit) (w : World) (from : FocusedCell) : Prop :=
  o = {| final := w;
         calls := [PreventDefault; MoveFocusIn from];
         completion := Normal tt |}.

Definition zeroDelta : Delta := {| y := Num 0; x := Num 0 |}.

Definition isMove (c : Call) : bool :=
  match c with
  | MoveFocusBy _ _ _ | MoveFocusIn _ => true
  | _ => false
  end.

Definition isPreventDefault (c : Call) : bool :=
  match c with
  | PreventDefault => true
  | _ => false
  end.

(** The call lists in which every move comes right after a
    [preventDefault]; [previous] tells whether the call before the list
    was one. *)
Fixpoint preventedMovesAfter (previous : bool) (cs : list Call) : bool :=
  match cs with
  | [] => true
  | c :: rest =>
      (if isMove c then previous else true)
      && preventedMovesAfter (isPreventDefault c) rest
  end.

Definition preventedMoves (cs : list Call) : bool :=
  preventedMovesAfter false cs.

(** The calls [onKeydown] may make. *)
Definition keydownCall (c : Call) : bool :=
  match c with
  | PreventDefault | MoveFocusBy _ _ _ | MoveFocusIn _ => true
  | _ => false
  end.

Definition isChildList (record : MutationRecord) : bool :=
  match type record with
  | childList => true
  | _ => false
  end.

(** In the words of the spec: the removed nodes of the child-list records
    of a batch that contain or equal the element of [prev], in the order
    of the batch. *)
Definition removalsOf (mutationRecords : list MutationRecord) (prev : FocusedCell) : list Node :=
  filter (fun removedNode => containsOrEqual removedNode (element prev))
    (flat_map removedNodes (filter isChildList mutationRecords)).

Definition isInit (i : Input) : bool :=
  match i with
  | Init _ => true
  | _ => false
  end.

(** The model after an input, read off the assignments of the method or
    handler the input runs. *)
Definition after (i : Input) (w : World) : GridNavigationModel :=
  match i with
  | Init table0 =>
      set_cleanup (cleanup_of_init (nextObserver (page w)))
        (set_table (Some table0) (this w))
  | Update pageSize0 => set_pageSize pageSize0 (this w)
  | Focusin event =>
      match findFocusinCell event with
      | Some cell =>
          set_focusedCell (Some cell) (set_prevFocusedCell (Some cell) (this w))
      | None => this w
      end
  | Focusout => set_focusedCell None (this w)
  | Destroy | Keydown _ | Mutation _ => this w
  end.

(** The four calls of the closure that [init] leaves in [cleanup]. *)
Definition cleanupCalls (t : HTMLTableElement) (ob : ObserverId) : list Call :=
  [RemoveEventListener t focusin OnFocusin;
   RemoveEventListener t focusout OnFocusout;
   RemoveEventListener t keydown OnKeydown;
   Disconnect ob].

(** The registry once that closure has run. *)
Definition detached (t : HTMLTableElement) (ob : ObserverId) (d : Dom) : Dom :=
  stopObserving ob
    (unregister (t, keydown, OnKeydown)
       (unregister (t, focusout, OnFocusout)
          (unregister (t, focusin, OnFocusin) d))).

Definition registered (r : Registration) (d : Dom) : bool :=
  existsb (Registration_eqb r) (listeners d).

(** A model on which [init] never ran holds nothing and listens to
    nothing. *)
Definition unbound (w : World) : Prop :=
  listeners (page w) = [] /\ observing (page w) = [] /\
  focusedCell (this w) = None /\ prevFocusedCell (this w) = None /\
  cleanup (this w) = cleanup_empty.

(** A computation that writes no field of the model, whether it completes
    or throws. *)
Definition keepsModel {A} (m : M A) : Prop :=
  forall w, this (final (m w)) = this w.

(** A list of codes in which each one differs from every later one. *)
Fixpoint apart (l : list Z) : Prop :=
  match l with
  | [] => True
  | a :: rest => Forall (fun b => (a =? b) = false) rest /\ apart rest
  end.

(** The four ways a run of [onKeydown] with a focused cell can go. *)
Inductive KeydownShape (w : World) (from : FocusedCell) : Outcome unit -> Prop :=
| shape_untouched :
    KeydownShape w from {| final := w; calls := []; completion := Normal tt |}
| shape_movesBy t delta :
    _table (this w) = Some t ->
    KeydownShape w from
      {| final := w; calls := [PreventDefault; MoveFocusBy t from delta];
         completion := Normal tt |}
| shape_movesIn :
    KeydownShape w from
      {| final := w; calls := [PreventDefault; MoveFocusIn from];
         completion := Normal tt |}
| shape_unbound :
    _table (this w) = None ->
    KeydownShape w from
      {| final := w; calls := [PreventDefault];
         completion := Throw invariantViolation |}.

(** ** Vocabulary of the lifecycle statements *)

(** The six calls of [init] on table [t], with [ob] the observer it makes
    and [anchor] the cell it refreshes the indices from. *)
Definition attachCalls (t : HTMLTableElement) (ob : ObserverId)
    (anchor : option FocusedCell) : list Call :=
  [AddEventListener t focusin OnFocusin;
   AddEventListener t focusout OnFocusout;
   AddEventListener t keydown OnKeydown;
   NewMutationObserver ob;
   Observe ob t;
   UpdateTableIndices t anchor].

(** The registry once [init] on table [t] has run. *)
Definition attachedTo (t : HTMLTableElement) (d : Dom) : Dom :=
  startObserving (nextObserver d) t
    (allocObserver
       (register (t, keydown, OnKeydown)
          (register (t, focusout, OnFocusout)
             (register (t, focusin, OnFocusin) d)))).

(** The table of the latest [init] of a run, and the page size of its
    latest [update]; [start] is what the model had before the run. *)
Definition latestTable (inputs : list Input) (start : option HTMLTableElement) :
    option HTMLTableElement :=
  fold_left (fun acc i => match i with Init table0 => Some table0 | _ => acc end)
    inputs start.

Definition latestPageSize (inputs : list Input) (start : Z) : Z :=
  fold_left (fun acc i => match i with Update pageSize0 => pageSize0 | _ => acc end)
    inputs start.

(** The inputs that come from the hook, not from the page. *)
Definition isLifecycle (i : Input) : bool :=
  match i with
  | Init _ | Destroy => true
  | _ => false
  end.

(** No removed node of a child-list record of the batch contains or equals
    [node]. *)
Definition keepsNode (mutationRecords : list MutationRecord) (node : Node) : bool :=
  forallb (fun record =>
             negb (isChildList record)
             || forallb (fun removedNode => negb (containsOrEqual removedNode node))
                  (removedNodes record))
    mutationRecords.

(** The keys the command table knows without Ctrl only. *)
Definition unmodifiedOnly : list Z :=
  [KeyCode.up keycode; KeyCode.down keycode; KeyCode.left keycode;
   KeyCode.right keycode; KeyCode.pageUp keycode; KeyCode.pageDown keycode;
   KeyCode.enter keycode; KeyCode.escape keycode; f2Code].

(** An observer id that no observation of the page uses yet. *)
Definition freshObserver (d : Dom) : bool :=
  forallb (fun p => negb (Nat.eqb (fst p) (nextObserver d))) (observing d).

(** ** Vocabulary of the statements about the page's answer *)

(** A run of the keydown handler as its own calls give it, followed by the
    page's answer to the move it ends with, if it makes one. *)
Definition withFocus (env : Env) (o : Outcome unit) : Env * Outcome unit :=
  match find isMove (calls o) with
  | Some c =>
      (fst (focusOf env c),
       {| final := final (deliver (snd (focusOf env c)) (final o));
          calls := calls o ++ calls (deliver (snd (focusOf env c)) (final o));
          completion := completion o |})
  | None => (env, o)
  end.

(** In the words of the spec: going through the removed nodes in order,
    every node that contains or equals the element of prevFocusedCell, as
    the field is when the node's turn comes, gets a zero-delta move from
    prevFocusedCell, followed by what the listeners do on the focus events
    of that move. *)
Fixpoint reconcile (t : HTMLTableElement) (nodes : list Node) (env : Env)
    (w : World) : Env * Outcome unit :=
  match nodes with
  | [] => (env, {| final := w; calls := []; completion := Normal tt |})
  | removedNode :: rest =>
      match prevFocusedCell (this w) with
      | Some prev =>
          if containsOrEqual removedNode (element prev) then
            let c := MoveFocusBy t prev {| y := Num 0; x := Num 0 |} in
            let o := deliver (snd (focusOf env c)) w in
            let r := reconcile t rest (fst (focusOf env c)) (final o) in
            (fst r,
             {| final := final (snd r);
                calls := c :: calls o ++ calls (snd r);
                completion := Normal tt |})
          else reconcile t rest env w
      | None => (env, {| final := w; calls := []; completion := Normal tt |})
      end
  end.

(** The removed nodes of the child-list records of a batch, in order. *)
Definition removedOf (mutationRecords : list MutationRecord) : list Node :=
  flat_map removedNodes (filter isChildList mutationRecords).

(** The calls a keydown run may contain once the focus listeners have run
    inside it: its own three, and the index refresh of [onFocusin]. *)
Definition keydownCall_live (c : Call) : bool :=
  match c with
  | PreventDefault | MoveFocusBy _ _ _ | MoveFocusIn _
  | UpdateTableIndices _ _ => true
  | _ => false
  end.

(** The input a focus event is to the model. *)
Definition noticeInput (notice : FocusNotice FocusEvent) : Input :=
  match notice with
  | NoticeFocusout => Focusout
  | NoticeFocusin event => Focusin event
  end.

(** A page that raises no focus event for any move. *)
Definition silent : Prop :=
  forall env c, snd (focusOf env c) = [].

(** ** Proof tools *)

Lemma distinct_apart l : KeyCode.distinct l = true -> apart l.
Proof.
  induction l as [|a rest IH]; [intros _; exact I|].
  cbn [KeyCode.distinct apart]. intros H. apply andb_true_iff in H.
  destruct H as [Ha Hrest]. split; [|exact (IH Hrest)].
  apply negb_true_iff in Ha. clear -Ha.
  induction rest as [|b rest IH]; [constructor|].
  cbn [existsb] in Ha. apply orb_false_iff in Ha. destruct Ha as [Hb Hrest].
  constructor; [exact Hb | exact (IH Hrest)].
Qed.

(** What [KeyCode.wf] gives: every code is positive, and a code differs
    from every later one of [KeyCode.codes]. *)
Lemma wf_codes k :
  KeyCode.wf k = true ->
  Forall (fun c => 0 < c) (KeyCode.codes k) /\ apart (KeyCode.codes k).
Proof.
  unfold KeyCode.wf. intros H. apply andb_true_iff in H. destruct H as [Hpos Hdis].
  split; [|exact (distinct_apart _ Hdis)].
  apply Forall_forall. intros c Hc.
  rewrite forallb_forall in Hpos. apply Z.ltb_lt, Hpos, Hc.
Qed.

Lemma wf_escape_positive k : KeyCode.wf k = true -> 0 < KeyCode.escape k.
Proof.
  intros H. destruct (wf_codes k H) as [Hpos _].
  rewrite Forall_forall in Hpos. apply Hpos. unfold KeyCode.codes.
  cbn [In]. tauto.
Qed.

Lemma opp_eqb a b : (- a =? - b) = (a =? b).
Proof.
  destruct (Z.eqb_spec a b) as [E|E].
  - rewrite E. apply Z.eqb_refl.
  - apply Z.eqb_neq. intros H. apply E. apply Z.opp_inj. exact H.
Qed.

Lemma neg_pos_eqb a b : 0 < a -> 0 < b -> (- a =? b) = false.
Proof. intros Ha Hb. apply Z.eqb_neq. lia. Qed.

Ltac keycode_facts H :=
  let Hpos := fresh "Hpos" in
  let Hdis := fresh "Hdis" in
  destruct (wf_codes _ H) as [Hpos Hdis];
  unfold KeyCode.codes in Hpos, Hdis;
  cbn [apart] in Hdis;
  repeat match goal with
    | H' : _ /\ _ |- _ => destruct H'
    | H' : Forall _ (_ :: _) |- _ => inversion H'; clear H'; subst
    | H' : Forall _ [] |- _ => clear H'
    end.

(** Settles the tests of the [switch], one after the other. *)
Ltac switch :=
  unfold f2Code in *;
  repeat first
    [ rewrite Z.eqb_refl
    | match goal with
      | H : (?a =? ?b) = false |- context [?a =? ?b] => rewrite H
      | H : (?b =? ?a) = false |- context [?a =? ?b] =>
          rewrite (Z.eqb_sym a b), H
      | |- context [- ?a =? - ?b] => rewrite (opp_eqb a b)
      | |- context [- ?a =? ?b] => rewrite (neg_pos_eqb a b) by assumption
      | |- context [?a =? - ?b] =>
          rewrite (Z.eqb_sym a (- b)), (neg_pos_eqb b a) by assumption
      end ].

Ltac open_world w :=
  let m := fresh "m" in
  let d := fresh "d" in
  destruct w as [m d]; destruct m; destruct d;
  cbn [this page _pageSize _table prevFocusedCell focusedCell cleanup] in *;
  subst.

(** [onKeydown] on a key pressed alone and on a key pressed with Ctrl. *)
Lemma onKeydown_pressed w from k :
  focusedCell (this w) = Some from ->
  onKeydown (pressed k) w = keydownCommand from k w.
Proof.
  intros H. unfold onKeydown, bind, getThis. cbn [completion final calls].
  rewrite H. change (numModifiersPressed (pressed k)) with 0.
  cbn [Z.eqb andb negb app keyCode pressed].
  destruct (keydownCommand from k w) as [f c r].
  reflexivity.
Qed.

Lemma onKeydown_ctrlPressed w from k :
  focusedCell (this w) = Some from ->
  onKeydown (ctrlPressed k) w = keydownCommand from (- k) w.
Proof.
  intros H. unfold onKeydown, bind, getThis. cbn [completion final calls].
  rewrite H. change (numModifiersPressed (ctrlPressed k)) with 1.
  cbn [Z.eqb Pos.eqb andb negb app ctrlKey keyCode ctrlPressed].
  destruct (keydownCommand from (- k) w) as [f c r].
  reflexivity.
Qed.

(** C1: at cell level, with the table bound, each navigation key pressed
    alone calls preventDefault and then moveFocusBy with its delta: Up and
    Down by one row, Left and Right by one column, Page Up and Page Down by
    pageSize rows, Home and End to the extremes of the row; Home and End
    with Ctrl alone go to the extremes of the grid. *)
Theorem onKeydown_cell_level_commands w from t :
  KeyCode.wf keycode = true ->
  focusedCell (this w) = Some from ->
  element from = cellElement from ->
  _table (this w) = Some t ->
  let inf := POSITIVE_INFINITY in
  let ninf := NEGATIVE_INFINITY in
  let p := _pageSize (this w) in
  movesBy (onKeydown (pressed (KeyCode.up keycode)) w) w t from {| y := Num (-1); x := Num 0 |} /\
  movesBy (onKeydown (pressed (KeyCode.down keycode)) w) w t from {| y := Num 1; x := Num 0 |} /\
  movesBy (onKeydown (pressed (KeyCode.left keycode)) w) w t from {| y := Num 0; x := Num (-1) |} /\
  movesBy (onKeydown (pressed (KeyCode.right keycode)) w) w t from {| y := Num 0; x := Num 1 |} /\
  movesBy (onKeydown (pressed (KeyCode.pageUp keycode)) w) w t from {| y := Num (- p); x := Num 0 |} /\
  movesBy (onKeydown (pressed (KeyCode.pageDown keycode)) w) w t from {| y := Num p; x := Num 0 |} /\
  movesBy (onKeydown (pressed (KeyCode.home keycode)) w) w t from {| y := Num 0; x := ninf |} /\
  movesBy (onKeydown (pressed (KeyCode.end_ keycode)) w) w t from {| y := Num 0; x := inf |} /\
  movesBy (onKeydown (ctrlPressed (KeyCode.home keycode)) w) w t from {| y := ninf; x := ninf |} /\
  movesBy (onKeydown (ctrlPressed (KeyCode.end_ keycode)) w) w t from {| y := inf; x := inf |}.
Proof.
  intros Hwf Hfoc Hcell Htable. cbn zeta.
  rewrite !(onKeydown_pressed _ _ _ Hfoc), !(onKeydown_ctrlPressed _ _ _ Hfoc).
  unfold movesBy, keydownCommand.
  rewrite Hcell, Nat.eqb_refl, andb_false_r.
  open_world w.
  keycode_facts Hwf.
  repeat split; switch; reflexivity.
Qed.

(** C2: with the focus on a nested widget of its cell, Escape and F2
    pressed alone call preventDefault and then move by zero from the cell,
    and every other key event is passed through: no call, no change. *)
Theorem onKeydown_inside_widget w from t :
  KeyCode.wf keycode = true ->
  focusedCell (this w) = Some from ->
  widget from = true ->
  element from <> cellElement from ->
  _table (this w) = Some t ->
  movesBy (onKeydown (pressed (KeyCode.escape keycode)) w) w t from zeroDelta /\
  movesBy (onKeydown (pressed f2Code) w) w t from zeroDelta /\
  forall event,
    0 <= keyCode event ->
    event <> pressed (KeyCode.escape keycode) ->
    event <> pressed f2Code ->
    untouched (onKeydown event w) w.
Proof.
  intros Hwf Hfoc Hwid Hcell Htable.
  pose proof (wf_escape_positive _ Hwf) as Hpos.
  apply Nat.eqb_neq in Hcell.
  repeat split.
  - rewrite (onKeydown_pressed _ _ _ Hfoc). unfold movesBy, keydownCommand.
    rewrite Hwid, Hcell, Z.eqb_refl. open_world w. reflexivity.
  - rewrite (onKeydown_pressed _ _ _ Hfoc). unfold movesBy, keydownCommand.
    rewrite Hwid, Hcell, Z.eqb_refl, orb_true_r. open_world w. reflexivity.
  - intros [k c a s m] Hk Hesc Hf2. cbn [keyCode] in Hk.
    unfold untouched, onKeydown, bind, getThis. cbn [completion final calls].
    rewrite Hfoc. unfold numModifiersPressed, keydownCommand.
    cbn [keyCode ctrlKey altKey shiftKey metaKey].
    rewrite Hwid, Hcell. unfold pressed, f2Code in *.
    destruct c, a, s, m;
      cbn [andb orb negb Z.add Z.eqb Pos.eqb Pos.add Pos.succ];
      try (destruct w; reflexivity).
    + destruct (Z.eqb_spec (- k) (KeyCode.escape keycode)); [lia|].
      destruct (Z.eqb_spec (- k) 113); [lia|].
      destruct w; reflexivity.
    + destruct (Z.eqb_spec k (KeyCode.escape keycode)) as [E|E];
        [exfalso; apply Hesc; rewrite E; reflexivity|].
      destruct (Z.eqb_spec k 113) as [E'|E'];
        [exfalso; apply Hf2; rewrite E'; reflexivity|].
      destruct w; reflexivity.
Qed.

(** C3: with a focused cell, Ctrl pressed alone negates the key code that
    the command table is asked about; one modifier that is not Ctrl, or
    two or more modifiers, make the handler return at once: no call, no
    change. *)
Theorem onKeydown_modifiers w from event :
  focusedCell (this w) = Some from ->
  (numModifiersPressed event = 1 -> ctrlKey event = true ->
     onKeydown event w = keydownCommand from (- keyCode event) w /\
     onKeydown event w = onKeydown (pressed (- keyCode event)) w) /\
  (numModifiersPressed event = 1 /\ ctrlKey event = false
     \/ 2 <= numModifiersPressed event ->
     untouched (onKeydown event w) w).
Proof.
  intros Hfoc. split.
  - intros Hn Hc. rewrite (onKeydown_pressed _ _ _ Hfoc).
    assert (onKeydown event w = keydownCommand from (- keyCode event) w) as E.
    { unfold onKeydown, bind, getThis. cbn [completion final calls].
      rewrite Hfoc, Hn, Hc. cbn [Z.eqb Pos.eqb andb app].
      destruct (keydownCommand from (- keyCode event) w) as [f c r].
      reflexivity. }
    split; exact E.
  - intros H. unfold untouched, onKeydown, bind, getThis.
    cbn [completion final calls]. rewrite Hfoc.
    destruct event as [k c a s m]. unfold numModifiersPressed in *.
    cbn [keyCode ctrlKey altKey shiftKey metaKey] in *.
    destruct c, a, s, m;
      cbn [andb orb negb Z.add Z.eqb Pos.eqb Pos.add Pos.succ] in *;
      try (destruct w; reflexivity);
      exfalso; destruct H as [[H1 H2]|H]; try discriminate; lia.
Qed.

(** ** What a run of [onKeydown] can be *)

Lemma keydownCommand_shape w from key :
  KeydownShape w from (keydownCommand from key w).
Proof.
  unfold keydownCommand.
  destruct w as [m d]; destruct m as [ps tb prev foc cl]; destruct d as [ls obs nx].
  repeat match goal with
    | |- context [if ?b then _ else _] => destruct b
    end;
    destruct tb as [t|]; cbn;
    first [ apply shape_untouched
          | apply shape_movesIn
          | apply shape_movesBy; reflexivity
          | apply shape_unbound; reflexivity ].
Qed.

Lemma onKeydown_shape w event :
  match focusedCell (this w) with
  | Some from => KeydownShape w from (onKeydown event w)
  | None => untouched (onKeydown event w) w
  end.
Proof.
  unfold onKeydown, untouched, bind, getThis. cbn [completion final calls].
  destruct (focusedCell (this w)) as [from|]; [|destruct w; reflexivity].
  pose proof (keydownCommand_shape w from (keyCode event)) as H1.
  pose proof (keydownCommand_shape w from (- keyCode event)) as H2.
  destruct ((numModifiersPressed event =? 1) && ctrlKey event).
  - destruct H2; cbn; constructor; assumption.
  - destruct (negb (numModifiersPressed event =? 0)).
    + cbn. destruct w. constructor.
    + destruct H1; cbn; constructor; assumption.
Qed.

Lemma KeydownShape_final w from o : KeydownShape w from o -> final o = w.
Proof. destruct 1; reflexivity. Qed.

Lemma KeydownShape_prevented w from o :
  KeydownShape w from o -> preventedMoves (calls o) = true.
Proof. destruct 1; reflexivity. Qed.

Lemma KeydownShape_calls w from o :
  KeydownShape w from o -> forallb keydownCall (calls o) = true.
Proof. destruct 1; reflexivity. Qed.

Lemma onKeydown_shape_final w event :
  final (onKeydown event w) = w /\
  forallb keydownCall (calls (onKeydown event w)) = true.
Proof.
  pose proof (onKeydown_shape w event) as H.
  destruct (focusedCell (this w)) as [from|].
  - split; [exact (KeydownShape_final _ _ _ H) | exact (KeydownShape_calls _ _ _ H)].
  - unfold untouched in H. rewrite H. split; reflexivity.
Qed.

(** C4: in every run of the keydown handler a move comes right after a
    preventDefault.  Enter, Escape and F2 pressed alone, with the table
    bound: Enter on the cell element and F2 on the cell element call
    preventDefault and move into the widget; Escape and F2 away from the
    cell element call preventDefault and move by zero; Enter away from the
    cell element and Escape on the cell element make no call and change
    nothing. *)
Theorem onKeydown_preventDefault w from t :
  KeyCode.wf keycode = true ->
  focusedCell (this w) = Some from ->
  _table (this w) = Some t ->
  (forall event, preventedMoves (calls (onKeydown event w)) = true) /\
  (element from = cellElement from ->
     movesIn (onKeydown (pressed (KeyCode.enter keycode)) w) w from /\
     untouched (onKeydown (pressed (KeyCode.escape keycode)) w) w /\
     movesIn (onKeydown (pressed f2Code) w) w from) /\
  (element from <> cellElement from ->
     untouched (onKeydown (pressed (KeyCode.enter keycode)) w) w /\
     movesBy (onKeydown (pressed (KeyCode.escape keycode)) w) w t from zeroDelta /\
     movesBy (onKeydown (pressed f2Code) w) w t from zeroDelta).
Proof.
  intros Hwf Hfoc Htable. split; [|split].
  - intros event. pose proof (onKeydown_shape w event) as H.
    rewrite Hfoc in H. exact (KeydownShape_prevented _ _ _ H).
  - intros Hcell. rewrite !(onKeydown_pressed _ _ _ Hfoc).
    keycode_facts Hwf.
    unfold movesIn, untouched, keydownCommand.
    rewrite Hcell, Nat.eqb_refl, andb_false_r. cbn [negb].
    open_world w. repeat split; switch; reflexivity.
  - intros Hcell. rewrite !(onKeydown_pressed _ _ _ Hfoc).
    keycode_facts Hwf. apply Nat.eqb_neq in Hcell.
    unfold movesBy, untouched, keydownCommand.
    rewrite Hcell. cbn [negb]. rewrite andb_true_r.
    open_world w. destruct (widget from); repeat split; switch; reflexivity.
Qed.

(** ** Loops *)

(** A loop whose body never changes the world ends in the world it began
    in, also when the body throws. *)
Lemma forOf_final {A} (l : list A) (body : A -> M unit) w :
  (forall a w', final (body a w') = w') ->
  final (forOf l body w) = w.
Proof.
  intros Hbody. induction l as [|a rest IH]; [reflexivity|].
  cbn [forOf]. unfold bind.
  pose proof (Hbody a w) as Ha.
  destruct (completion (body a w)); cbn [final].
  - rewrite Ha. exact IH.
  - exact Ha.
Qed.

(** A loop whose body completes without changing the world makes the
    calls of its rounds, one round after the other. *)
Lemma forOf_calls {A} (l : list A) (body : A -> M unit) (f : A -> list Call) w :
  (forall a, In a l ->
     body a w = {| final := w; calls := f a; completion := Normal tt |}) ->
  forOf l body w =
    {| final := w; calls := flat_map f l; completion := Normal tt |}.
Proof.
  induction l as [|a rest IH]; intros Hbody; [reflexivity|].
  cbn [forOf flat_map]. unfold bind.
  rewrite (Hbody a (or_introl eq_refl)). cbn [completion final calls].
  rewrite IH; [reflexivity|].
  intros b Hb. apply Hbody. right. exact Hb.
Qed.

Lemma flat_map_filter_const {A} (f : A -> bool) (c : Call) (l : list A) :
  flat_map (fun a => if f a then [c] else []) l = map (fun _ => c) (filter f l).
Proof.
  induction l as [|a rest IH]; [reflexivity|].
  cbn [flat_map filter]. destruct (f a); cbn; rewrite IH; reflexivity.
Qed.

Lemma outcome_eta {A} (o : Outcome A) :
  {| final := final o; calls := calls o; completion := completion o |} = o.
Proof. destruct o; reflexivity. Qed.

Lemma bind_getThis {B} (f : GridNavigationModel -> M B) w :
  bind getThis f w = f (this w) w.
Proof. unfold bind, getThis. cbn [completion final calls app]. apply outcome_eta. Qed.

Lemma bind_normal {A B} (m : M A) (f : A -> M B) w w' cs a :
  m w = {| final := w'; calls := cs; completion := Normal a |} ->
  bind m f w =
    {| final := final (f a w'); calls := cs ++ calls (f a w');
       completion := completion (f a w') |}.
Proof. intros H. unfold bind. rewrite H. reflexivity. Qed.

Lemma table_run w :
  table w =
    {| final := w; calls := [];
       completion := match _table (this w) with
                     | Some t => Normal t
                     | None => Throw invariantViolation
                     end |}.
Proof.
  unfold table, bind, getThis. cbn [completion final calls].
  destruct (_table (this w)); reflexivity.
Qed.

Lemma table_bound w t :
  _table (this w) = Some t ->
  table w = {| final := w; calls := []; completion := Normal t |}.
Proof.
  intros H. unfold table. rewrite bind_getThis, H. reflexivity.
Qed.

Lemma onRemovedNode_run w prev t removedNode :
  prevFocusedCell (this w) = Some prev ->
  _table (this w) = Some t ->
  onRemovedNode removedNode w =
    {| final := w;
       calls := if containsOrEqual removedNode (element prev)
                then [MoveFocusBy t prev zeroDelta] else [];
       completion := Normal tt |}.
Proof.
  intros Hprev Htable. unfold onRemovedNode, table, bind, getThis.
  cbn [completion final calls]. rewrite Hprev.
  destruct (containsOrEqual removedNode (element prev)).
  - cbn [completion final calls]. rewrite Htable. cbn. rewrite Hprev. cbn.
    destruct w; reflexivity.
  - destruct w; reflexivity.
Qed.

Lemma onRemovedNode_final removedNode w :
  final (onRemovedNode removedNode w) = w.
Proof.
  unfold onRemovedNode, table, bind, getThis. cbn [completion final calls].
  destruct w as [m d]; destruct m as [ps tb prev foc cl]. cbn.
  destruct prev as [prev|]; [|reflexivity].
  destruct (containsOrEqual removedNode (element prev)); [|reflexivity].
  destruct tb; reflexivity.
Qed.

Lemma onMutation_run w mutationRecords prev t :
  prevFocusedCell (this w) = Some prev ->
  _table (this w) = Some t ->
  onMutation mutationRecords w =
    {| final := w;
       calls :=
         map (fun _ => MoveFocusBy t prev zeroDelta)
             (removalsOf mutationRecords prev)
         ++ [UpdateTableIndices t
               match focusedCell (this w) with
               | Some cell => Some cell
               | None => Some prev
               end];
       completion := Normal tt |}.
Proof.
  intros Hprev Htable.
  unfold onMutation. rewrite bind_getThis, Hprev.
  rewrite (bind_normal _ _ w w
             (flat_map (fun record =>
                if isChildList record
                then flat_map (fun n => if containsOrEqual n (element prev)
                                        then [MoveFocusBy t prev zeroDelta] else [])
                              (removedNodes record)
                else []) mutationRecords) tt).
  - rewrite (bind_normal _ _ w w [] t (table_bound w t Htable)).
    rewrite bind_getThis. unfold updateTableIndices, external, nullish.
    cbn [completion final calls app]. rewrite Hprev.
    f_equal; [destruct w; reflexivity|].
    f_equal. unfold removalsOf.
    rewrite <- flat_map_filter_const.
    clear. induction mutationRecords as [|r rest IH]; [reflexivity|].
    cbn [flat_map filter]. destruct (isChildList r).
    + cbn [flat_map]. rewrite flat_map_app, IH. reflexivity.
    + exact IH.
  - apply forOf_calls. intros record _. unfold isChildList.
    destruct (type record); try reflexivity.
    apply forOf_calls. intros n _. apply onRemovedNode_run; assumption.
Qed.

Lemma onFocusin_ignored w event :
  findFocusinCell event = None -> untouched (onFocusin event w) w.
Proof. intros H. unfold untouched, onFocusin. rewrite H. reflexivity. Qed.

Lemma onFocusin_run w event cell t :
  findFocusinCell event = Some cell ->
  _table (this w) = Some t ->
  onFocusin event w =
    {| final :=
         {| this := {| _pageSize := _pageSize (this w);
                       _table := _table (this w);
                       prevFocusedCell := Some cell;
                       focusedCell := Some cell;
                       cleanup := cleanup (this w) |};
            page := page w |};
       calls := [UpdateTableIndices t (Some cell)];
       completion := Normal tt |}.
Proof.
  intros H Htable. unfold onFocusin. rewrite H.
  destruct w as [m d]; destruct m; destruct d. cbn in Htable. subst.
  reflexivity.
Qed.

(** C6: a focusin event that resolves to no cell is ignored: no field
    changes and no call is made.  One that resolves to a cell sets
    focusedCell and prevFocusedCell to it, leaves the other fields alone,
    and refreshes the index metadata of the bound table from that cell. *)
Theorem onFocusin_tracks w event :
  (findFocusinCell event = None -> untouched (onFocusin event w) w) /\
  (forall cell t,
     findFocusinCell event = Some cell ->
     _table (this w) = Some t ->
     onFocusin event w =
       {| final :=
            {| this := {| _pageSize := _pageSize (this w);
                          _table := _table (this w);
                          prevFocusedCell := Some cell;
                          focusedCell := Some cell;
                          cleanup := cleanup (this w) |};
               page := page w |};
          calls := [UpdateTableIndices t (Some cell)];
          completion := Normal tt |}).
Proof.
  split.
  - apply onFocusin_ignored.
  - intros cell t. apply onFocusin_run.
Qed.

(** ** The model after each input *)

Lemma bind_final {A B} (m : M A) (f : A -> M B) w :
  final (m w) = w ->
  (forall a, final (f a w) = w) ->
  final (bind m f w) = w.
Proof.
  intros Hm Hf. unfold bind. destruct (completion (m w)); cbn [final].
  - rewrite Hm. apply Hf.
  - exact Hm.
Qed.

Lemma onMutation_final w mutationRecords :
  final (onMutation mutationRecords w) = w.
Proof.
  unfold onMutation. apply bind_final; [reflexivity|]. intros m.
  destruct (prevFocusedCell m); [|reflexivity].
  apply bind_final.
  - apply forOf_final. intros record w'.
    destruct (type record); try reflexivity.
    apply forOf_final. intros n w''. apply onRemovedNode_final.
  - intros _. unfold table, bind, getThis. cbn [completion final calls].
    destruct w as [m' d]; destruct m' as [ps tb prev foc cl].
    destruct tb; reflexivity.
Qed.

Lemma keepsModel_bind {A B} (m : M A) (f : A -> M B) :
  keepsModel m -> (forall a, keepsModel (f a)) -> keepsModel (bind m f).
Proof.
  intros Hm Hf w. unfold bind. destruct (completion (m w)); cbn [final].
  - rewrite Hf. apply Hm.
  - apply Hm.
Qed.

Lemma keepsModel_external c f : keepsModel (external c f).
Proof. intros w. reflexivity. Qed.

Lemma keepsModel_table : keepsModel table.
Proof. intros w. rewrite table_run. reflexivity. Qed.

Lemma destroy_this w : this (final (destroy w)) = this w.
Proof.
  revert w. change (keepsModel destroy). unfold destroy.
  apply keepsModel_bind; [intros w; reflexivity|]. intros m.
  destruct (cleanup m); [intros w; reflexivity|]. unfold runCleanup.
  unfold removeEventListener, disconnect.
  repeat first
    [ apply keepsModel_table
    | apply keepsModel_external
    | apply keepsModel_bind; [|intros ?] ].
Qed.

Lemma onFocusin_this w event :
  this (final (onFocusin event w)) = after (Focusin event) w.
Proof.
  unfold onFocusin, after. destruct (findFocusinCell event); [|reflexivity].
  destruct w as [m d]; destruct m as [ps tb prev foc cl].
  destruct tb; reflexivity.
Qed.

Lemma step_this w i : this (step w i) = after i w.
Proof.
  unfold step. destruct i; cbn [handle].
  - destruct w as [m d]; destruct m; destruct d; reflexivity.
  - apply destroy_this.
  - reflexivity.
  - apply onFocusin_this.
  - reflexivity.
  - rewrite (proj1 (onKeydown_shape_final w event)). reflexivity.
  - rewrite onMutation_final. reflexivity.
Qed.

Lemma after_prevFocusedCell w i :
  prevFocusedCell (after i w) =
    match i with
    | Focusin event =>
        match findFocusinCell event with
        | Some cell => Some cell
        | None => prevFocusedCell (this w)
        end
    | _ => prevFocusedCell (this w)
    end.
Proof.
  destruct i; try reflexivity.
  cbn [after]. destruct (findFocusinCell event); reflexivity.
Qed.

Lemma exec_prevFocusedCell inputs : forall w,
  prevFocusedCell (this (exec w inputs)) = None <->
  prevFocusedCell (this w) = None /\ existsb successfulFocus inputs = false.
Proof.
  induction inputs as [|i rest IH]; intros w.
  - cbn [exec fold_left existsb]. intuition congruence.
  - cbn [exec fold_left existsb]. fold (exec (step w i) rest).
    rewrite IH, step_this, after_prevFocusedCell, orb_false_iff.
    destruct i; cbn [successfulFocus]; try (intuition congruence).
    destruct (findFocusinCell event); intuition congruence.
Qed.

(** C7: a step of the model leaves prevFocusedCell as it is, unless the
    step is a focusin event that resolves to a cell, which sets it to that
    cell; so no method or handler sets it back to null.  The focusout
    handler sets focusedCell to null and touches nothing else.  From the
    new model on, prevFocusedCell is null exactly as long as no focusin
    event has resolved to a cell. *)
Theorem prevFocusedCell_kept w i inputs :
  prevFocusedCell (this (step w i)) =
    match i with
    | Focusin event =>
        match findFocusinCell event with
        | Some cell => Some cell
        | None => prevFocusedCell (this w)
        end
    | _ => prevFocusedCell (this w)
    end /\
  (prevFocusedCell (this w) <> None ->
     prevFocusedCell (this (step w i)) <> None) /\
  onFocusout w =
    {| final :=
         {| this := {| _pageSize := _pageSize (this w);
                       _table := _table (this w);
                       prevFocusedCell := prevFocusedCell (this w);
                       focusedCell := None;
                       cleanup := cleanup (this w) |};
            page := page w |};
       calls := [];
       completion := Normal tt |} /\
  (prevFocusedCell (this (exec initial inputs)) = None <->
     existsb successfulFocus inputs = false).
Proof.
  assert (prevFocusedCell (this (step w i)) =
    match i with
    | Focusin event =>
        match findFocusinCell event with
        | Some cell => Some cell
        | None => prevFocusedCell (this w)
        end
    | _ => prevFocusedCell (this w)
    end) as E.
  { rewrite step_this. apply after_prevFocusedCell. }
  split; [exact E|]. split; [|split].
  - intros H. rewrite E. destruct i; try exact H.
    destruct (findFocusinCell event); [discriminate | exact H].
  - reflexivity.
  - rewrite exec_prevFocusedCell. cbn [initial this prevFocusedCell new_GridNavigationModel].
    intuition congruence.
Qed.

(** ** Binding and unbinding the table *)



Lemma exec_unbound inputs : forall w,
  existsb isInit inputs = false ->
  _table (this (exec w inputs)) = _table (this w).
Proof.
  induction inputs as [|i rest IH]; intros w H; [reflexivity|].
  cbn [exec fold_left existsb] in *. fold (exec (step w i) rest).
  apply orb_false_iff in H. destruct H as [Hi Hrest].
  rewrite (IH _ Hrest), step_this.
  destruct i; cbn [after isInit] in *; try reflexivity; try discriminate.
  destruct (findFocusinCell event); reflexivity.
Qed.

Lemma step_table w i t :
  _table (this w) = Some t -> exists t', _table (this (step w i)) = Some t'.
Proof.
  intros H. rewrite step_this.
  destruct i; cbn [after]; try (exists t; exact H).
  - exists table0. reflexivity.
  - destruct (findFocusinCell event); exists t; exact H.
Qed.

(** C8, as the code has it: the getter throws whenever no table is bound,
    which is so in the new model and stays so as long as init is not
    called; destroy does not unbind the table: after init on a table and
    then destroy, the getter returns that table, and no step of the model
    takes a bound table away. *)
Theorem table_getter w t i inputs :
  (_table (this w) = None ->
     table w = {| final := w; calls := [];
                  completion := Throw invariantViolation |}) /\
  (existsb isInit inputs = false ->
     completion (table (exec initial inputs)) = Throw invariantViolation) /\
  completion (table (step (step w (Init t)) Destroy)) = Normal t /\
  (_table (this w) = Some t ->
     exists t', completion (table (step w i)) = Normal t').
Proof.
  split; [|split; [|split]].
  - intros H. rewrite table_run, H. reflexivity.
  - intros H. rewrite table_run, (exec_unbound _ _ H). reflexivity.
  - rewrite table_run, !step_this. reflexivity.
  - intros H. destruct (step_table w i t H) as [t' Ht'].
    exists t'. rewrite table_run, Ht'. reflexivity.
Qed.

(** ** Detaching *)

Lemma filter_fixed {A} (f : A -> bool) l :
  forallb f l = true -> filter f l = l.
Proof.
  induction l as [|a rest IH]; [reflexivity|].
  cbn [forallb filter]. intros H. apply andb_true_iff in H.
  destruct H as [Ha Hrest]. rewrite Ha, (IH Hrest). reflexivity.
Qed.

Lemma forallb_filter_same {A} (f : A -> bool) l :
  forallb f (filter f l) = true.
Proof.
  induction l as [|a rest IH]; [reflexivity|].
  cbn [filter]. destruct (f a) eqn:E; [|exact IH].
  cbn [forallb]. rewrite E, IH. reflexivity.
Qed.

Lemma forallb_filter_other {A} (f g : A -> bool) l :
  forallb f l = true -> forallb f (filter g l) = true.
Proof.
  induction l as [|a rest IH]; [reflexivity|].
  cbn [forallb filter]. intros H. apply andb_true_iff in H.
  destruct H as [Ha Hrest]. destruct (g a); [|exact (IH Hrest)].
  cbn [forallb]. rewrite Ha, (IH Hrest). reflexivity.
Qed.

Lemma existsb_filter_out (r : Registration) l :
  existsb (Registration_eqb r)
    (filter (fun r' => negb (Registration_eqb r r')) l) = false.
Proof.
  induction l as [|a rest IH]; [reflexivity|].
  cbn [filter]. destruct (Registration_eqb r a) eqn:E; cbn [negb]; [exact IH|].
  cbn [existsb]. rewrite E, IH. reflexivity.
Qed.

Lemma existsb_filter_none {A} (f g : A -> bool) l :
  existsb f l = false -> existsb f (filter g l) = false.
Proof.
  induction l as [|a rest IH]; [reflexivity|].
  cbn [existsb filter]. intros H. apply orb_false_iff in H.
  destruct H as [Ha Hrest]. destruct (g a); [|exact (IH Hrest)].
  cbn [existsb]. rewrite Ha, (IH Hrest). reflexivity.
Qed.

Lemma filter_thrice {A} (f1 f2 f3 : A -> bool) l :
  filter f3 (filter f2 (filter f1 (filter f3 (filter f2 (filter f1 l))))) =
  filter f3 (filter f2 (filter f1 l)).
Proof.
  assert (forallb f1 (filter f3 (filter f2 (filter f1 l))) = true) as H1
    by apply forallb_filter_other, forallb_filter_other, forallb_filter_same.
  assert (forallb f2 (filter f3 (filter f2 (filter f1 l))) = true) as H2
    by apply forallb_filter_other, forallb_filter_same.
  rewrite (filter_fixed _ _ H1), (filter_fixed _ _ H2).
  apply filter_fixed, forallb_filter_same.
Qed.

(** Running the closure of [init] a second time finds nothing to remove. *)
Lemma detached_twice t ob d : detached t ob (detached t ob d) = detached t ob d.
Proof.
  unfold detached, stopObserving, unregister. cbn [listeners observing nextObserver].
  f_equal.
  - apply filter_thrice.
  - apply filter_fixed, forallb_filter_same.
Qed.

Lemma destroy_run w t ob :
  _table (this w) = Some t ->
  cleanup (this w) = cleanup_of_init ob ->
  destroy w =
    {| final := {| this := this w; page := detached t ob (page w) |};
       calls := cleanupCalls t ob;
       completion := Normal tt |}.
Proof.
  intros Htable Hcl.
  destruct w as [m d]; destruct m as [ps tb prev foc cl]. cbn in Htable, Hcl. subst.
  reflexivity.
Qed.

Lemma destroy_empty w :
  cleanup (this w) = cleanup_empty -> untouched (destroy w) w.
Proof.
  intros Hcl. destruct w as [m d]; destruct m as [ps tb prev foc cl].
  cbn in Hcl. subst. reflexivity.
Qed.

Lemma init_this w t :
  _table (this (step w (Init t))) = Some t /\
  cleanup (this (step w (Init t))) = cleanup_of_init (nextObserver (page w)).
Proof. rewrite step_this. split; reflexivity. Qed.

(** C9, as the code has it: destroy with the empty closure the field
    starts with does nothing.  After init, destroy completes and makes the
    three removeEventListener calls and the disconnect; it leaves the
    closure in place, so a second destroy completes as well, makes the same
    four calls again, and changes nothing, the listeners being gone
    already. *)
Theorem destroy_twice w t :
  (cleanup (this w) = cleanup_empty -> untouched (destroy w) w) /\
  let ob := nextObserver (page w) in
  let w1 := step w (Init t) in
  let w2 := step w1 Destroy in
  destroy w1 =
    {| final := w2; calls := cleanupCalls t ob; completion := Normal tt |} /\
  destroy w2 =
    {| final := w2; calls := cleanupCalls t ob; completion := Normal tt |} /\
  cleanup (this w2) = cleanup_of_init ob /\
  registered (t, focusin, OnFocusin) (page w2) = false /\
  registered (t, focusout, OnFocusout) (page w2) = false /\
  registered (t, keydown, OnKeydown) (page w2) = false.
Proof.
  split; [apply destroy_empty|]. cbn zeta.
  destruct (init_this w t) as [Htable Hcl].
  pose proof (destroy_run _ _ _ Htable Hcl) as H1.
  assert (step (step w (Init t)) Destroy =
          {| this := this (step w (Init t));
             page := detached t (nextObserver (page w)) (page (step w (Init t))) |}) as E.
  { unfold step at 1. cbn [handle]. rewrite H1. reflexivity. }
  split; [rewrite H1, E; reflexivity|].
  split; [|split].
  - rewrite E. rewrite (destroy_run _ t (nextObserver (page w))); [|exact Htable|exact Hcl].
    cbn [this page]. rewrite detached_twice. reflexivity.
  - rewrite E. exact Hcl.
  - rewrite E. unfold registered, detached, stopObserving, unregister.
    cbn [page listeners].
    repeat split.
    + apply existsb_filter_none, existsb_filter_none, existsb_filter_out.
    + apply existsb_filter_none, existsb_filter_out.
    + apply existsb_filter_out.
Qed.

(** ** Reachable worlds

    The handlers run only where [init] has put them, so they find the
    table bound and none of them throws. *)

Lemma step_page w i :
  match i with
  | Init _ | Destroy => True
  | _ => page (step w i) = page w
  end.
Proof.
  destruct i; try exact I; unfold step; cbn [handle].
  - reflexivity.
  - unfold onFocusin. destruct (findFocusinCell event); [|reflexivity].
    destruct w as [m d]; destruct m as [ps tb prev foc cl]; destruct tb; reflexivity.
  - reflexivity.
  - rewrite (proj1 (onKeydown_shape_final w event)). reflexivity.
  - rewrite onMutation_final. reflexivity.
Qed.

Lemma reachable_unbound w :
  reachable w -> _table (this w) = None -> unbound w.
Proof.
  induction 1 as [|w i Hw IH Hdel]; intros Htable.
  - repeat split.
  - pose proof (step_page w i) as Hpage.
    rewrite step_this in Htable.
    destruct i; cbn [after deliverable] in *.
    + discriminate.
    + specialize (IH Htable). unfold step. cbn [handle].
      destruct IH as (? & ? & ? & ? & Hcl).
      rewrite (destroy_empty w Hcl). repeat split; assumption.
    + destruct w as [m d]; destruct m. cbn in *. specialize (IH Htable).
      exact IH.
    + assert (_table (this w) = None) as Hw0.
      { destruct (findFocusinCell event); [|exact Htable].
        destruct w as [m d]; destruct m; exact Htable. }
      destruct (IH Hw0) as (Hl & _). unfold listens in Hdel.
      rewrite Hl in Hdel. discriminate.
    + assert (_table (this w) = None) as Hw0.
      { destruct w as [m d]; destruct m; exact Htable. }
      destruct (IH Hw0) as (Hl & _). unfold listens in Hdel.
      rewrite Hl in Hdel. discriminate.
    + specialize (IH Htable). unfold unbound. rewrite Hpage, step_this. exact IH.
    + specialize (IH Htable). unfold unbound. rewrite Hpage, step_this. exact IH.
Qed.

(** X6: in every world the model can get to, no call of init, destroy or
    update and no event or mutation batch that the page can deliver makes
    the model throw: the handlers run only while listeners of an init are
    registered, and then the table is bound. *)
Lemma reachable_completes w i :
  reachable w -> deliverable i w = true -> completion (handle i w) = Normal tt.
Proof.
  intros Hw Hdel. pose proof (reachable_unbound w Hw) as Hunb.
  destruct i; cbn [handle deliverable] in *.
  - destruct w as [m d]; destruct m; destruct d; reflexivity.
  - destruct (cleanup (this w)) as [|ob] eqn:Hcl.
    + rewrite (destroy_empty w Hcl). reflexivity.
    + destruct (_table (this w)) as [t|] eqn:Ht.
      * rewrite (destroy_run w t ob Ht Hcl). reflexivity.
      * destruct (Hunb eq_refl) as (_ & _ & _ & _ & Hcl'). congruence.
  - reflexivity.
  - destruct (_table (this w)) as [t|] eqn:Ht.
    + destruct (findFocusinCell event) as [cell|] eqn:Hc.
      * rewrite (onFocusin_run w event cell t Hc Ht). reflexivity.
      * rewrite (onFocusin_ignored w event Hc). reflexivity.
    + destruct (Hunb eq_refl) as (Hl & _). unfold listens in Hdel.
      rewrite Hl in Hdel. discriminate.
  - reflexivity.
  - pose proof (onKeydown_shape w event) as Hs.
    destruct (focusedCell (this w)) as [from|] eqn:Hf.
    + remember (onKeydown event w) as o. destruct Hs; try reflexivity.
      destruct (Hunb H) as (_ & _ & Hf' & _). congruence.
    + rewrite Hs. reflexivity.
  - destruct (prevFocusedCell (this w)) as [prev|] eqn:Hp.
    + destruct (_table (this w)) as [t|] eqn:Ht.
      * rewrite (onMutation_run w mutationRecords prev t Hp Ht). reflexivity.
      * destruct (Hunb eq_refl) as (_ & _ & _ & Hp' & _). congruence.
    + unfold onMutation, bind, getThis. cbn [completion final calls].
      rewrite Hp. reflexivity.
Qed.

(** A handler that finds a focused cell or a previous cell finds the table
    bound. *)
Lemma reachable_bound w :
  reachable w ->
  focusedCell (this w) <> None \/ prevFocusedCell (this w) <> None ->
  exists t, _table (this w) = Some t.
Proof.
  intros Hw Hcell. destruct (_table (this w)) as [t|] eqn:Ht; [exists t; reflexivity|].
  destruct (reachable_unbound w Hw Ht) as (_ & _ & Hf & Hp & _).
  destruct Hcell as [H|H]; contradiction.
Qed.

(** The hook on a table that is not a grid, or not mounted yet: mounting
    binds nothing, and unmounting finds the empty closure. *)
Lemma unmount_without_init tableRole getTable :
  String.eqb tableRole "grid" = false \/ getTable = None ->
  untouched (mountEffect tableRole getTable initial) initial /\
  untouched (unmountEffect initial) initial.
Proof.
  intros H. split; [|reflexivity]. unfold mountEffect.
  destruct H as [H|H]; rewrite H; [reflexivity|].
  destruct (String.eqb tableRole "grid"); reflexivity.
Qed.

(** ** Attaching *)

Lemma init_outcome w t :
  init t w =
    {| final :=
         {| this := {| _pageSize := _pageSize (this w);
                       _table := Some t;
                       prevFocusedCell := prevFocusedCell (this w);
                       focusedCell := focusedCell (this w);
                       cleanup := cleanup_of_init (nextObserver (page w)) |};
            page := attachedTo t (page w) |};
       calls := attachCalls t (nextObserver (page w))
                  (nullish (focusedCell (this w)) (prevFocusedCell (this w)));
       completion := Normal tt |}.
Proof.
  destruct w as [m d]; destruct m; destruct d. reflexivity.
Qed.

Lemma Registration_eqb_eq a b : Registration_eqb a b = true <-> a = b.
Proof.
  destruct a as [[t1 e1] h1], b as [[t2 e2] h2]. unfold Registration_eqb.
  split.
  - intros H. apply andb_true_iff in H. destruct H as [H Hh].
    apply andb_true_iff in H. destruct H as [Ht He].
    apply Nat.eqb_eq in Ht. subst.
    destruct e1, e2; try discriminate; destruct h1, h2; try discriminate;
      reflexivity.
  - intros H. injection H as -> -> ->. rewrite Nat.eqb_refl.
    destruct e2, h2; reflexivity.
Qed.

Lemma Registration_eqb_type t1 e1 h1 t2 e2 h2 :
  EventType_eqb e1 e2 = false ->
  Registration_eqb (t1, e1, h1) (t2, e2, h2) = false.
Proof.
  intros H. unfold Registration_eqb. rewrite H, andb_false_r. reflexivity.
Qed.

Lemma Registration_eqb_target t1 e1 h1 t2 e2 h2 :
  t1 <> t2 -> Registration_eqb (t1, e1, h1) (t2, e2, h2) = false.
Proof.
  intros H. unfold Registration_eqb. apply Nat.eqb_neq in H. rewrite H.
  reflexivity.
Qed.

Lemma registered_register r d : registered r (register r d) = true.
Proof.
  unfold registered, register. cbn [listeners].
  destruct (existsb (Registration_eqb r) (listeners d)) eqn:E; [exact E|].
  rewrite existsb_app. cbn [existsb].
  rewrite (proj2 (Registration_eqb_eq r r) eq_refl), orb_true_r. reflexivity.
Qed.

Lemma registered_register_kept r r' d :
  registered r d = true -> registered r (register r' d) = true.
Proof.
  unfold registered, register. cbn [listeners]. intros H.
  destruct (existsb (Registration_eqb r') (listeners d)); [exact H|].
  rewrite existsb_app, H. reflexivity.
Qed.

Lemma registered_unregister_other r r' d :
  Registration_eqb r' r = false ->
  registered r (unregister r' d) = registered r d.
Proof.
  unfold registered, unregister. cbn [listeners]. intros Hne.
  induction (listeners d) as [|a rest IH]; [reflexivity|].
  cbn [filter existsb].
  destruct (Registration_eqb r' a) eqn:Ea; cbn [negb existsb].
  - apply Registration_eqb_eq in Ea. subst a.
    destruct (Registration_eqb r r') eqn:E.
    + apply Registration_eqb_eq in E. subst r'.
      rewrite (proj2 (Registration_eqb_eq r r) eq_refl) in Hne. discriminate.
    + exact IH.
  - rewrite IH. reflexivity.
Qed.

Lemma filter_absent (r : Registration) l :
  existsb (Registration_eqb r) l = false ->
  filter (fun r' => negb (Registration_eqb r r')) l = l.
Proof.
  intros H. apply filter_fixed.
  induction l as [|a rest IH]; [reflexivity|].
  cbn [existsb forallb] in *. apply orb_false_iff in H. destruct H as [Ha Hrest].
  rewrite Ha, (IH Hrest). reflexivity.
Qed.

Lemma observing_startObserving ob t d :
  In (ob, t) (observing (startObserving ob t d)).
Proof.
  unfold startObserving. cbn [observing].
  destruct (existsb (fun p => Nat.eqb (fst p) ob && Nat.eqb (snd p) t)
              (observing d)) eqn:E.
  - apply existsb_exists in E. destruct E as [[ob' t'] [Hin H]].
    cbn [fst snd] in H. apply andb_true_iff in H. destruct H as [H1 H2].
    apply Nat.eqb_eq in H1, H2. subst. exact Hin.
  - apply in_or_app. right. left. reflexivity.
Qed.

Lemma observing_startObserving_kept p ob t d :
  In p (observing d) -> In p (observing (startObserving ob t d)).
Proof.
  unfold startObserving. cbn [observing]. intros H.
  destruct (existsb (fun q => Nat.eqb (fst q) ob && Nat.eqb (snd q) t)
              (observing d)); [exact H|].
  apply in_or_app. left. exact H.
Qed.

Lemma observing_stopObserving_other ob t ob' d :
  ob <> ob' ->
  In (ob, t) (observing d) -> In (ob, t) (observing (stopObserving ob' d)).
Proof.
  unfold stopObserving. cbn [observing]. intros Hne H.
  apply filter_In. split; [exact H|]. cbn [fst].
  apply negb_true_iff, Nat.eqb_neq. exact Hne.
Qed.

Lemma attachedTo_registered t d :
  registered (t, focusin, OnFocusin) (attachedTo t d) = true /\
  registered (t, focusout, OnFocusout) (attachedTo t d) = true /\
  registered (t, keydown, OnKeydown) (attachedTo t d) = true /\
  In (nextObserver d, t) (observing (attachedTo t d)).
Proof.
  unfold attachedTo.
  split; [|split; [|split]].
  - apply (registered_register_kept _ _ (register _ (register _ d))).
    apply registered_register_kept, registered_register.
  - apply (registered_register_kept _ _ (register _ (register _ d))).
    apply registered_register.
  - apply (registered_register _ (register _ (register _ d))).
  - apply observing_startObserving.
Qed.

(** X1: init completes from every state, bound or not.  It binds the
    table, makes in this order the three addEventListener calls, a new
    observer and its observe call, and the index refresh from focusedCell if
    there is one and from prevFocusedCell if not; it keeps the page size and
    both focus slots, and leaves in cleanup the closure of this init.  After
    it the three listeners are registered on the table and the new observer
    observes it. *)
Theorem init_attaches w t :
  init t w =
    {| final :=
         {| this := {| _pageSize := _pageSize (this w);
                       _table := Some t;
                       prevFocusedCell := prevFocusedCell (this w);
                       focusedCell := focusedCell (this w);
                       cleanup := cleanup_of_init (nextObserver (page w)) |};
            page := attachedTo t (page w) |};
       calls := attachCalls t (nextObserver (page w))
                  match focusedCell (this w) with
                  | Some cell => Some cell
                  | None => prevFocusedCell (this w)
                  end;
       completion := Normal tt |} /\
  registered (t, focusin, OnFocusin) (attachedTo t (page w)) = true /\
  registered (t, focusout, OnFocusout) (attachedTo t (page w)) = true /\
  registered (t, keydown, OnKeydown) (attachedTo t (page w)) = true /\
  In (nextObserver (page w), t) (observing (attachedTo t (page w))).
Proof.
  split; [apply init_outcome | apply attachedTo_registered].
Qed.

Lemma existsb_fresh (obs : list (ObserverId * HTMLTableElement)) ob t :
  forallb (fun p => negb (Nat.eqb (fst p) ob)) obs = true ->
  existsb (fun p => Nat.eqb (fst p) ob && Nat.eqb (snd p) t) obs = false.
Proof.
  induction obs as [|a rest IH]; [reflexivity|].
  cbn [forallb existsb]. intros H. apply andb_true_iff in H.
  destruct H as [Ha Hrest]. apply negb_true_iff in Ha.
  apply orb_false_iff. split; [|exact (IH Hrest)].
  apply andb_false_iff. left. exact Ha.
Qed.

Lemma detached_attachedTo t d :
  registered (t, focusin, OnFocusin) d = false ->
  registered (t, focusout, OnFocusout) d = false ->
  registered (t, keydown, OnKeydown) d = false ->
  freshObserver d = true ->
  listeners (detached t (nextObserver d) (attachedTo t d)) = listeners d /\
  observing (detached t (nextObserver d) (attachedTo t d)) = observing d.
Proof.
  unfold registered, freshObserver. intros H1 H2 H3 Hfresh.
  unfold detached, attachedTo, stopObserving, unregister, startObserving,
    allocObserver, register.
  cbn [listeners observing nextObserver]. split.
  - pose proof (proj2 (Registration_eqb_eq (t, focusin, OnFocusin) _) eq_refl) as E11.
    pose proof (proj2 (Registration_eqb_eq (t, focusout, OnFocusout) _) eq_refl) as E22.
    pose proof (proj2 (Registration_eqb_eq (t, keydown, OnKeydown) _) eq_refl) as E33.
    pose proof (Registration_eqb_type t focusin OnFocusin t focusout OnFocusout eq_refl) as E12.
    pose proof (Registration_eqb_type t focusin OnFocusin t keydown OnKeydown eq_refl) as E13.
    pose proof (Registration_eqb_type t focusout OnFocusout t focusin OnFocusin eq_refl) as E21.
    pose proof (Registration_eqb_type t focusout OnFocusout t keydown OnKeydown eq_refl) as E23.
    pose proof (Registration_eqb_type t keydown OnKeydown t focusin OnFocusin eq_refl) as E31.
    pose proof (Registration_eqb_type t keydown OnKeydown t focusout OnFocusout eq_refl) as E32.
    rewrite H1. rewrite existsb_app, H2. cbn [existsb orb]. rewrite E21. cbn [orb].
    rewrite !existsb_app, H3. cbn [existsb orb]. rewrite E31, E32. cbn [orb].
    rewrite !filter_app, (filter_absent _ _ H1), (filter_absent _ _ H2),
      (filter_absent _ _ H3).
    repeat (progress (cbn [filter negb];
                      rewrite ?E11, ?E22, ?E33, ?E12, ?E13, ?E21, ?E23, ?E31, ?E32)).
    rewrite !app_nil_r. reflexivity.
  - match goal with
    | |- context [if ?c then _ else _] =>
        assert (c = false) as E by (apply existsb_fresh; exact Hfresh);
        rewrite E
    end.
    rewrite filter_app.
    match goal with
    | |- ?kept ++ ?removed = ?before =>
        assert (kept = before) as Ekept by (apply filter_fixed; exact Hfresh);
        assert (removed = []) as Eremoved
          by (cbn [filter fst]; rewrite Nat.eqb_refl; reflexivity)
    end.
    rewrite Ekept, Eremoved. apply app_nil_r.
Qed.

(** X2: attach, then detach.  From a page where the three listeners are not
    registered on the table and the next observer id is unused, init followed
    by destroy completes and leaves the listeners and the observations of the
    page exactly as they were before init. *)
Theorem init_destroy_round_trip w t :
  registered (t, focusin, OnFocusin) (page w) = false ->
  registered (t, focusout, OnFocusout) (page w) = false ->
  registered (t, keydown, OnKeydown) (page w) = false ->
  freshObserver (page w) = true ->
  completion (destroy (step w (Init t))) = Normal tt /\
  listeners (page (step (step w (Init t)) Destroy)) = listeners (page w) /\
  observing (page (step (step w (Init t)) Destroy)) = observing (page w).
Proof.
  intros H1 H2 H3 Hfresh.
  destruct (init_this w t) as [Htable Hcl].
  pose proof (destroy_run _ _ _ Htable Hcl) as Hrun.
  split; [rewrite Hrun; reflexivity|].
  unfold step at 1 3. cbn [handle]. rewrite Hrun. cbn [final page].
  unfold step. cbn [handle]. rewrite init_outcome. cbn [final page].
  apply detached_attachedTo; assumption.
Qed.

Lemma step_Init_page w t : page (step w (Init t)) = attachedTo t (page w).
Proof. unfold step. cbn [handle]. rewrite init_outcome. reflexivity. Qed.

Lemma step_Destroy_page w t ob :
  _table (this w) = Some t ->
  cleanup (this w) = cleanup_of_init ob ->
  page (step w Destroy) = detached t ob (page w).
Proof.
  intros Ht Hcl. unfold step. cbn [handle].
  rewrite (destroy_run w t ob Ht Hcl). reflexivity.
Qed.

Lemma registered_attachedTo_kept r t d :
  registered r d = true -> registered r (attachedTo t d) = true.
Proof.
  intros H. unfold attachedTo.
  apply (registered_register_kept r _ (register _ (register _ d))).
  apply registered_register_kept, registered_register_kept. exact H.
Qed.

Lemma registered_detached_other t' e h t ob d :
  t <> t' ->
  registered (t', e, h) (detached t ob d) = registered (t', e, h) d.
Proof.
  intros Hne. unfold detached.
  change (registered (t', e, h) (stopObserving ob ?d'))
    with (registered (t', e, h) d').
  rewrite !registered_unregister_other;
    try (apply Registration_eqb_target; exact Hne).
  reflexivity.
Qed.

Lemma observing_attachedTo_kept p t d :
  In p (observing d) -> In p (observing (attachedTo t d)).
Proof.
  intros H. unfold attachedTo. apply observing_startObserving_kept. exact H.
Qed.

(** X3: init a second time without destroy in between.  The second init
    overwrites the closure in cleanup, and that closure reads the table
    when it runs, so the destroy that follows detaches from the second table
    only: the observer of the first init goes on observing the first table,
    and when the two tables differ the three listeners stay registered on
    the first one. *)
Theorem init_twice_leaks w t1 t2 :
  let ob1 := nextObserver (page w) in
  let w3 := step (step (step w (Init t1)) (Init t2)) Destroy in
  _table (this w3) = Some t2 /\
  In (ob1, t1) (observing (page w3)) /\
  (t1 <> t2 ->
     registered (t1, focusin, OnFocusin) (page w3) = true /\
     registered (t1, focusout, OnFocusout) (page w3) = true /\
     registered (t1, keydown, OnKeydown) (page w3) = true).
Proof.
  cbn zeta.
  destruct (init_this (step w (Init t1)) t2) as [Htable Hcl].
  rewrite (step_Destroy_page _ _ _ Htable Hcl), !step_Init_page.
  destruct (attachedTo_registered t1 (page w)) as (R1 & R2 & R3 & Hob).
  split; [rewrite step_this; exact Htable|]. split.
  - apply observing_stopObserving_other.
    + change (nextObserver (attachedTo t1 (page w))) with (S (nextObserver (page w))).
      apply Nat.neq_succ_diag_r.
    + apply observing_attachedTo_kept. exact Hob.
  - intros Hne. assert (t2 <> t1) as Hne' by (intros E; apply Hne; symmetry; exact E).
    rewrite !(registered_detached_other _ _ _ _ _ _ Hne').
    repeat split; apply registered_attachedTo_kept; assumption.
Qed.

(** ** Runs *)

Lemma after_table w i :
  _table (after i w) =
    match i with
    | Init table0 => Some table0
    | _ => _table (this w)
    end.
Proof.
  destruct i; try reflexivity.
  cbn [after]. destruct (findFocusinCell event); reflexivity.
Qed.

Lemma after_pageSize w i :
  _pageSize (after i w) =
    match i with
    | Update pageSize0 => pageSize0
    | _ => _pageSize (this w)
    end.
Proof.
  destruct i; try reflexivity.
  cbn [after]. destruct (findFocusinCell event); reflexivity.
Qed.

(** X4: whatever the run, the table the model is bound to is the one of
    the latest init (destroy never changes it), and the page size is the one
    of the latest update, whether init ran before it or not. *)
Theorem exec_latest inputs w :
  _table (this (exec w inputs)) = latestTable inputs (_table (this w)) /\
  _pageSize (this (exec w inputs)) = latestPageSize inputs (_pageSize (this w)).
Proof.
  revert w. induction inputs as [|i rest IH]; intros w; [split; reflexivity|].
  unfold exec, latestTable, latestPageSize. cbn [fold_left].
  fold (exec (step w i) rest).
  destruct (IH (step w i)) as [Ht Hp]. rewrite Ht, Hp.
  rewrite !step_this, after_table, after_pageSize.
  unfold latestTable, latestPageSize. destruct i; split; reflexivity.
Qed.

Lemma step_focus_slots w i :
  focusedCell (this w) = None \/ focusedCell (this w) = prevFocusedCell (this w) ->
  focusedCell (this (step w i)) = None \/
  focusedCell (this (step w i)) = prevFocusedCell (this (step w i)).
Proof.
  intros H. rewrite step_this.
  destruct i; cbn [after]; try exact H.
  - destruct (findFocusinCell event); [right; reflexivity | exact H].
  - left. reflexivity.
Qed.

Lemma exec_focus_slots inputs : forall w,
  focusedCell (this w) = None \/ focusedCell (this w) = prevFocusedCell (this w) ->
  focusedCell (this (exec w inputs)) = None \/
  focusedCell (this (exec w inputs)) = prevFocusedCell (this (exec w inputs)).
Proof.
  induction inputs as [|i rest IH]; intros w H; [exact H|].
  unfold exec. cbn [fold_left]. fold (exec (step w i) rest).
  apply IH, step_focus_slots, H.
Qed.

(** X5: in every run from the new model, focusedCell is either null or the
    very cell held in prevFocusedCell; so the cell that init and the
    mutation handler pass to the index refresh, focusedCell if present and
    prevFocusedCell if not, is always prevFocusedCell. *)
Theorem focus_slots_agree inputs :
  (focusedCell (this (exec initial inputs)) = None \/
   focusedCell (this (exec initial inputs)) =
     prevFocusedCell (this (exec initial inputs))) /\
  nullish (focusedCell (this (exec initial inputs)))
          (prevFocusedCell (this (exec initial inputs))) =
    prevFocusedCell (this (exec initial inputs)).
Proof.
  assert (focusedCell (this (exec initial inputs)) = None \/
          focusedCell (this (exec initial inputs)) =
            prevFocusedCell (this (exec initial inputs))) as H
    by (apply exec_focus_slots; left; reflexivity).
  split; [exact H|]. unfold nullish.
  destruct H as [H|H]; rewrite H; [reflexivity|].
  destruct (prevFocusedCell (this (exec initial inputs))); reflexivity.
Qed.

(** X7: once focusout has run, every keydown event is left alone, whatever
    its key and modifiers: no call is made and nothing changes. *)
Theorem onKeydown_after_focusout w event :
  untouched (onKeydown event (step w Focusout)) (step w Focusout).
Proof.
  pose proof (onKeydown_shape (step w Focusout) event) as H.
  change (focusedCell (this (step w Focusout))) with (@None FocusedCell) in H.
  exact H.
Qed.

Lemma onFocusin_final w event :
  final (onFocusin event w) =
    {| this := after (Focusin event) w; page := page w |}.
Proof.
  unfold onFocusin, after.
  destruct (findFocusinCell event); [|destruct w; reflexivity].
  destruct w as [m d]; destruct m as [ps tb prev foc cl].
  destruct tb; reflexivity.
Qed.

(** X13: of two focusin events in a row the later one decides: when it
    resolves to a cell, the model ends as if the earlier event had never
    come, whether that one resolved or not. *)
Theorem onFocusin_latest_wins w earlier later cell :
  findFocusinCell later = Some cell ->
  step (step w (Focusin earlier)) (Focusin later) = step w (Focusin later).
Proof.
  intros H. unfold step. cbn [handle]. rewrite !onFocusin_final.
  cbn [after this page]. rewrite H.
  destruct (findFocusinCell earlier); destruct w as [m d]; destruct m; reflexivity.
Qed.

(** X14: only init and destroy reach the page and the binding.  Every
    other step of the model, update and the four handlers, leaves the
    listeners and observations of the page, the bound table and the closure
    in cleanup as they are. *)
Theorem handlers_keep_binding w i :
  isLifecycle i = false ->
  page (step w i) = page w /\
  _table (this (step w i)) = _table (this w) /\
  cleanup (this (step w i)) = cleanup (this w).
Proof.
  intros H. pose proof (step_page w i) as Hpage. rewrite step_this.
  destruct i; try discriminate H; cbn [after];
    (split; [exact Hpage|]);
    try (destruct (findFocusinCell event)); split; reflexivity.
Qed.

(** X11: the hook on a new model, whatever the role and whether the table
    is there or not: the mount effect, a page size change and the unmount
    effect all complete, the page is left without any listener and without
    any observation, and the page size is the one given. *)
Theorem hook_lifecycle tableRole getTable pageSize0 :
  let w1 := final (mountEffect tableRole getTable initial) in
  let w2 := final (pageSizeEffect pageSize0 w1) in
  let w3 := final (unmountEffect w2) in
  completion (mountEffect tableRole getTable initial) = Normal tt /\
  completion (unmountEffect w2) = Normal tt /\
  listeners (page w3) = [] /\
  observing (page w3) = [] /\
  _pageSize (this w3) = pageSize0.
Proof.
  cbn zeta. unfold mountEffect, unmountEffect, pageSizeEffect.
  destruct (String.eqb tableRole "grid"); [destruct getTable as [t|]|];
    try (repeat split; reflexivity).
  rewrite init_outcome. cbn [final completion].
  split; [reflexivity|].
  match goal with
  | |- context [destroy ?w2] =>
      pose proof (destroy_run w2 t 0%nat eq_refl eq_refl) as Hrun
  end.
  rewrite Hrun. cbn [final completion page this _pageSize update assign].
  destruct (detached_attachedTo t (page initial) eq_refl eq_refl eq_refl eq_refl)
    as [Hl Ho].
  split; [reflexivity|]. split; [exact Hl|]. split; [exact Ho | reflexivity].
Qed.

(** ** Keys the command table does not know *)

Lemma keydownCommand_unknown w from key :
  Forall (fun c => (key =? c) = false) (KeyCode.codes keycode) ->
  (key =? - KeyCode.home keycode) = false ->
  (key =? - KeyCode.end_ keycode) = false ->
  keydownCommand from key w =
    {| final := w; calls := []; completion := Normal tt |}.
Proof.
  intros Hcodes Hhome Hend. unfold KeyCode.codes in Hcodes.
  repeat match goal with
    | H : Forall _ (_ :: _) |- _ => inversion H; clear H; subst
    | H : Forall _ [] |- _ => clear H
    end.
  unfold keydownCommand, f2Code.
  repeat match goal with
    | H : (?a =? ?b) = false |- context [?a =? ?b] => rewrite H
    end.
  cbn [orb].
  destruct (widget from && negb (Nat.eqb (element from) (cellElement from)));
    reflexivity.
Qed.

Lemma onKeydown_unfocused w event :
  focusedCell (this w) = None -> untouched (onKeydown event w) w.
Proof.
  intros H. pose proof (onKeydown_shape w event) as Hs. rewrite H in Hs.
  exact Hs.
Qed.

Lemma negated_unknown k :
  0 <= k ->
  Forall (fun c => 0 < c) (KeyCode.codes keycode) ->
  Forall (fun c => (- k =? c) = false) (KeyCode.codes keycode).
Proof.
  intros Hk Hpos. apply Forall_forall. intros c Hc.
  rewrite Forall_forall in Hpos. specialize (Hpos c Hc).
  apply Z.eqb_neq. lia.
Qed.

(** X8: Ctrl changes Home and End only.  With Ctrl as the sole modifier, an
    arrow key, Page Up, Page Down, Enter, Escape and F2 are left alone: no
    call is made, the default is not prevented, nothing changes. *)
Theorem onKeydown_ctrl_ignored w k :
  KeyCode.wf keycode = true ->
  In k unmodifiedOnly ->
  untouched (onKeydown (ctrlPressed k) w) w.
Proof.
  intros Hwf Hin.
  destruct (focusedCell (this w)) as [from|] eqn:Hfoc;
    [|apply onKeydown_unfocused; exact Hfoc].
  rewrite (onKeydown_ctrlPressed _ _ _ Hfoc). unfold untouched.
  destruct (wf_codes _ Hwf) as [Hpos _].
  assert (0 <= k) as Hk.
  { rewrite Forall_forall in Hpos. apply Z.lt_le_incl, Hpos.
    unfold unmodifiedOnly, KeyCode.codes, f2Code in *. cbn [In] in *. tauto. }
  pose proof (negated_unknown k Hk Hpos) as Hneg.
  clear Hpos Hk.
  keycode_facts Hwf.
  unfold unmodifiedOnly, f2Code in Hin. cbn [In] in Hin.
  apply keydownCommand_unknown; [exact Hneg| |];
    rewrite opp_eqb;
    repeat (destruct Hin as [Hin|Hin]; [subst k; try assumption|]);
    try contradiction;
    rewrite Z.eqb_sym; assumption.
Qed.

(** X9: a key code that is none of the ten of the command table nor F2's is
    left alone under every combination of modifiers, with or without a
    focused cell: no call is made, the default is not prevented, nothing
    changes. *)
Theorem onKeydown_unknown_key w event :
  KeyCode.wf keycode = true ->
  0 <= keyCode event ->
  ~ In (keyCode event) (KeyCode.codes keycode) ->
  untouched (onKeydown event w) w.
Proof.
  intros Hwf Hk Hout.
  destruct (focusedCell (this w)) as [from|] eqn:Hfoc;
    [|apply onKeydown_unfocused; exact Hfoc].
  destruct (wf_codes _ Hwf) as [Hpos _].
  assert (Forall (fun c => (keyCode event =? c) = false) (KeyCode.codes keycode))
    as Hplain.
  { apply Forall_forall. intros c Hc. apply Z.eqb_neq. intros E.
    apply Hout. rewrite E. exact Hc. }
  pose proof (negated_unknown _ Hk Hpos) as Hneg.
  assert (0 < KeyCode.home keycode /\ 0 < KeyCode.end_ keycode) as [Hh He].
  { rewrite Forall_forall in Hpos.
    split; apply Hpos; unfold KeyCode.codes; cbn [In]; tauto. }
  assert (keyCode event <> KeyCode.home keycode /\
          keyCode event <> KeyCode.end_ keycode) as [Hnh Hne].
  { split; intros E; apply Hout; rewrite E; unfold KeyCode.codes; cbn [In]; tauto. }
  clear Hpos Hout Hwf.
  assert (keydownCommand from (keyCode event) w =
          {| final := w; calls := []; completion := Normal tt |}) as Eplain.
  { apply keydownCommand_unknown; [exact Hplain| |]; apply Z.eqb_neq; lia. }
  assert (keydownCommand from (- keyCode event) w =
          {| final := w; calls := []; completion := Normal tt |}) as Eneg.
  { apply keydownCommand_unknown; [exact Hneg| |]; apply Z.eqb_neq; lia. }
  unfold untouched, onKeydown. rewrite bind_getThis, Hfoc.
  destruct ((numModifiersPressed event =? 1) && ctrlKey event); [exact Eneg|].
  destruct (negb (numModifiersPressed event =? 0)); [reflexivity | exact Eplain].
Qed.

(** ** Page size *)

Lemma keydownCommand_page w from t :
  KeyCode.wf keycode = true ->
  element from = cellElement from ->
  _table (this w) = Some t ->
  movesBy (keydownCommand from (KeyCode.pageUp keycode) w) w t from
    {| y := Num (- _pageSize (this w)); x := Num 0 |} /\
  movesBy (keydownCommand from (KeyCode.pageDown keycode) w) w t from
    {| y := Num (_pageSize (this w)); x := Num 0 |}.
Proof.
  intros Hwf Hcell Htable. unfold movesBy, keydownCommand.
  rewrite Hcell, Nat.eqb_refl, andb_false_r.
  open_world w. keycode_facts Hwf.
  split; switch; reflexivity.
Qed.

(** X12: a page size given by update counts from the next key on, without
    a new init: at cell level, Page Up and Page Down pressed right after
    update move by that many rows up and down. *)
Theorem update_then_page_keys w pageSize0 from t :
  KeyCode.wf keycode = true ->
  focusedCell (this w) = Some from ->
  element from = cellElement from ->
  _table (this w) = Some t ->
  movesBy (onKeydown (pressed (KeyCode.pageUp keycode)) (step w (Update pageSize0)))
    (step w (Update pageSize0)) t from {| y := Num (- pageSize0); x := Num 0 |} /\
  movesBy (onKeydown (pressed (KeyCode.pageDown keycode)) (step w (Update pageSize0)))
    (step w (Update pageSize0)) t from {| y := Num pageSize0; x := Num 0 |}.
Proof.
  intros Hwf Hfoc Hcell Htable.
  assert (focusedCell (this (step w (Update pageSize0))) = Some from) as Hfoc'
    by (rewrite step_this; exact Hfoc).
  assert (_table (this (step w (Update pageSize0))) = Some t) as Htable'
    by (rewrite step_this; exact Htable).
  rewrite !(onKeydown_pressed _ _ _ Hfoc').
  exact (keydownCommand_page (step w (Update pageSize0)) from t Hwf Hcell Htable').
Qed.

(** ** Mutations that spare the focused element *)

Lemma removalsOf_kept mutationRecords prev :
  keepsNode mutationRecords (element prev) = true ->
  removalsOf mutationRecords prev = [].
Proof.
  unfold keepsNode, removalsOf.
  induction mutationRecords as [|r rest IH]; [reflexivity|].
  cbn [forallb filter]. intros H. apply andb_true_iff in H.
  destruct H as [Hr Hrest].
  destruct (isChildList r); [|exact (IH Hrest)].
  cbn [negb orb] in Hr.
  cbn [flat_map]. rewrite filter_app, (IH Hrest), app_nil_r.
  clear -Hr. induction (removedNodes r) as [|n nodes IHn]; [reflexivity|].
  cbn [forallb filter] in *. apply andb_true_iff in Hr. destruct Hr as [Hn Hnodes].
  apply negb_true_iff in Hn. rewrite Hn. exact (IHn Hnodes).
Qed.

(** X10: a mutation batch in which no removed node of a child-list record
    contains or equals the previously focused element never moves the focus: with a previous
    cell and the table bound, its one call is the index refresh, and no field
    changes.  The empty batch is such a batch. *)
Theorem onMutation_spares_focus w mutationRecords prev t :
  prevFocusedCell (this w) = Some prev ->
  _table (this w) = Some t ->
  keepsNode mutationRecords (element prev) = true ->
  onMutation mutationRecords w =
    {| final := w;
       calls := [UpdateTableIndices t
                   match focusedCell (this w) with
                   | Some cell => Some cell
                   | None => Some prev
                   end];
       completion := Normal tt |}.
Proof.
  intros Hprev Htable Hkeeps.
  rewrite (onMutation_run w mutationRecords prev t Hprev Htable).
  rewrite (removalsOf_kept _ _ Hkeeps). reflexivity.
Qed.

(** ** Attaching again *)

(** X15: destroy and a new init keep the position.  destroy writes no field
    of the model, and the init that follows keeps the page size and both
    focus slots and anchors its index refresh at the cell the model held
    before destroy, focusedCell if present and prevFocusedCell if not. *)
Theorem reinit_keeps_position w t :
  this (step w Destroy) = this w /\
  calls (init t (step w Destroy)) =
    attachCalls t (nextObserver (page (step w Destroy)))
      match focusedCell (this w) with
      | Some cell => Some cell
      | None => prevFocusedCell (this w)
      end /\
  focusedCell (this (step (step w Destroy) (Init t))) = focusedCell (this w) /\
  prevFocusedCell (this (step (step w Destroy) (Init t))) =
    prevFocusedCell (this w) /\
  _pageSize (this (step (step w Destroy) (Init t))) = _pageSize (this w).
Proof.
  assert (this (step w Destroy) = this w) as E by apply destroy_this.
  split; [exact E|]. rewrite init_outcome, !step_this. cbn [calls after].
  rewrite E. repeat split; reflexivity.
Qed.

(** ** Cells without a widget *)

(** X16: the widget guard asks for a widget cell.  When the cell of the
    focused element is not a widget cell, the navigation keys work from any
    element of the cell, the cell element or one inside it: each of the ten
    commands calls preventDefault and then moveFocusBy with its delta, as
    at cell level. *)
Theorem onKeydown_plain_cell_commands w from t :
  KeyCode.wf keycode = true ->
  focusedCell (this w) = Some from ->
  widget from = false ->
  _table (this w) = Some t ->
  let inf := POSITIVE_INFINITY in
  let ninf := NEGATIVE_INFINITY in
  let p := _pageSize (this w) in
  movesBy (onKeydown (pressed (KeyCode.up keycode)) w) w t from {| y := Num (-1); x := Num 0 |} /\
  movesBy (onKeydown (pressed (KeyCode.down keycode)) w) w t from {| y := Num 1; x := Num 0 |} /\
  movesBy (onKeydown (pressed (KeyCode.left keycode)) w) w t from {| y := Num 0; x := Num (-1) |} /\
  movesBy (onKeydown (pressed (KeyCode.right keycode)) w) w t from {| y := Num 0; x := Num 1 |} /\
  movesBy (onKeydown (pressed (KeyCode.pageUp keycode)) w) w t from {| y := Num (- p); x := Num 0 |} /\
  movesBy (onKeydown (pressed (KeyCode.pageDown keycode)) w) w t from {| y := Num p; x := Num 0 |} /\
  movesBy (onKeydown (pressed (KeyCode.home keycode)) w) w t from {| y := Num 0; x := ninf |} /\
  movesBy (onKeydown (pressed (KeyCode.end_ keycode)) w) w t from {| y := Num 0; x := inf |} /\
  movesBy (onKeydown (ctrlPressed (KeyCode.home keycode)) w) w t from {| y := ninf; x := ninf |} /\
  movesBy (onKeydown (ctrlPressed (KeyCode.end_ keycode)) w) w t from {| y := inf; x := inf |}.
Proof.
  intros Hwf Hfoc Hwid Htable. cbn zeta.
  rewrite !(onKeydown_pressed _ _ _ Hfoc), !(onKeydown_ctrlPressed _ _ _ Hfoc).
  unfold movesBy, keydownCommand.
  rewrite Hwid. cbn [andb].
  open_world w.
  keycode_facts Hwf.
  repeat split; switch; reflexivity.
Qed.

(** ** The page's answer to a move *)

Lemma dispatchNotice_final notice w :
  final (dispatchNotice notice w) = step w (noticeInput notice).
Proof. destruct notice; reflexivity. Qed.

Lemma deliver_cons notice notices w :
  deliver (notice :: notices) w =
    {| final := final (deliver notices (step w (noticeInput notice)));
       calls := calls (notify notice w)
                ++ calls (deliver notices (step w (noticeInput notice)));
       completion := completion (deliver notices (step w (noticeInput notice))) |}.
Proof.
  unfold deliver. cbn [forOf]. unfold bind. cbn [dispatchNotice completion final calls].
  destruct notice; reflexivity.
Qed.

(** Delivering focus events is a run of the model on them. *)
Lemma deliver_final notices : forall w,
  final (deliver notices w) = exec w (map noticeInput notices).
Proof.
  induction notices as [|notice rest IH]; intros w; [reflexivity|].
  rewrite deliver_cons. cbn [final map]. rewrite IH. reflexivity.
Qed.

Lemma deliver_completion notices : forall w,
  completion (deliver notices w) = Normal tt.
Proof.
  induction notices as [|notice rest IH]; intros w; [reflexivity|].
  rewrite deliver_cons. cbn [completion]. apply IH.
Qed.

Lemma step_notice_keeps notice w :
  page (step w (noticeInput notice)) = page w /\
  _pageSize (this (step w (noticeInput notice))) = _pageSize (this w) /\
  _table (this (step w (noticeInput notice))) = _table (this w) /\
  cleanup (this (step w (noticeInput notice))) = cleanup (this w) /\
  (prevFocusedCell (this w) <> None ->
   prevFocusedCell (this (step w (noticeInput notice))) <> None).
Proof.
  split.
  - pose proof (step_page w (noticeInput notice)) as H.
    destruct notice; exact H.
  - rewrite step_this.
    destruct notice as [|event]; cbn [noticeInput after].
    + repeat split; try reflexivity. intros H. exact H.
    + destruct (findFocusinCell event);
        (split; [reflexivity|]); (split; [reflexivity|]);
        (split; [reflexivity|]); intros H; [discriminate | exact H].
Qed.

Lemma deliver_keeps notices : forall w,
  page (final (deliver notices w)) = page w /\
  _pageSize (this (final (deliver notices w))) = _pageSize (this w) /\
  _table (this (final (deliver notices w))) = _table (this w) /\
  cleanup (this (final (deliver notices w))) = cleanup (this w) /\
  (prevFocusedCell (this w) <> None ->
   prevFocusedCell (this (final (deliver notices w))) <> None).
Proof.
  induction notices as [|notice rest IH]; intros w.
  - repeat split. intros H. exact H.
  - rewrite deliver_cons. cbn [final].
    destruct (IH (step w (noticeInput notice))) as (Hp & Hs & Ht & Hc & Hprev).
    destruct (step_notice_keeps notice w) as (Hp' & Hs' & Ht' & Hc' & Hprev').
    rewrite Hp, Hs, Ht, Hc, Hp', Hs', Ht', Hc'.
    repeat split. intros H. apply Hprev, Hprev', H.
Qed.

Lemma notify_calls notice w :
  forallb keydownCall_live (calls (notify notice w)) = true.
Proof.
  destruct notice as [|event]; [reflexivity|].
  cbn [notify]. unfold onFocusin.
  destruct (findFocusinCell event); [|reflexivity].
  destruct w as [m d]; destruct m as [ps tb prev foc cl].
  destruct tb; reflexivity.
Qed.

Lemma deliver_calls notices : forall w,
  forallb keydownCall_live (calls (deliver notices w)) = true.
Proof.
  induction notices as [|notice rest IH]; intros w; [reflexivity|].
  rewrite deliver_cons. cbn [calls]. rewrite forallb_app, notify_calls, IH.
  reflexivity.
Qed.

Lemma result_eta {A} (r : Env * Outcome A) :
  (fst r,
   {| final := final (snd r); calls := calls (snd r);
      completion := completion (snd r) |}) = r.
Proof. destruct r as [env o]; destruct o; reflexivity. Qed.

Lemma bindL_getThis {B} (f : GridNavigationModel -> L B) env w :
  bindL (lift getThis) f env w = f (this w) env w.
Proof.
  unfold bindL, lift, getThis. cbn [fst snd completion final calls app].
  apply result_eta.
Qed.

Lemma bindL_lift {A B} (m : M A) (f : A -> L B) env w w' cs a :
  m w = {| final := w'; calls := cs; completion := Normal a |} ->
  bindL (lift m) f env w =
    (fst (f a env w'),
     {| final := final (snd (f a env w'));
        calls := cs ++ calls (snd (f a env w'));
        completion := completion (snd (f a env w')) |}).
Proof.
  intros H. unfold bindL, lift. cbn [fst snd]. rewrite H. reflexivity.
Qed.

(** ** The keydown handler with the page's answer *)

Lemma keydownCommand_live_run env w from key :
  keydownCommand_live from key env w = withFocus env (keydownCommand from key w).
Proof.
  unfold keydownCommand_live, keydownCommand.
  destruct w as [m d]; destruct m as [ps tb prev foc cl]; destruct d as [ls obs nx].
  repeat match goal with
    | |- context [if ?b then _ else _] => destruct b
    end;
    destruct tb as [t|]; reflexivity.
Qed.

Lemma onKeydown_live_run env w event :
  onKeydown_live event env w = withFocus env (onKeydown event w).
Proof.
  unfold onKeydown_live, onKeydown. rewrite bindL_getThis, bind_getThis.
  destruct (focusedCell (this w)) as [from|]; [|reflexivity].
  destruct ((numModifiersPressed event =? 1) && ctrlKey event);
    [apply keydownCommand_live_run|].
  destruct (negb (numModifiersPressed event =? 0));
    [reflexivity | apply keydownCommand_live_run].
Qed.

Lemma withFocus_shape env w from o :
  KeydownShape w from o ->
  page (final (snd (withFocus env o))) = page w /\
  _pageSize (this (final (snd (withFocus env o)))) = _pageSize (this w) /\
  _table (this (final (snd (withFocus env o)))) = _table (this w) /\
  cleanup (this (final (snd (withFocus env o)))) = cleanup (this w) /\
  forallb keydownCall_live (calls (snd (withFocus env o))) = true /\
  final o = w.
Proof.
  destruct 1 as [|t delta Ht| |Ht]; unfold withFocus;
    cbn [calls find isMove final snd fst forallb keydownCall_live andb app].
  - repeat split.
  - destruct (deliver_keeps (snd (focusOf env (MoveFocusBy t from delta))) w)
      as (Hp & Hs & Htb & Hc & _).
    rewrite Hp, Hs, Htb, Hc, deliver_calls. repeat split.
  - destruct (deliver_keeps (snd (focusOf env (MoveFocusIn from))) w)
      as (Hp & Hs & Htb & Hc & _).
    rewrite Hp, Hs, Htb, Hc, deliver_calls. repeat split.
  - repeat split.
Qed.

(** C10, as the code has it: a run of the keydown handler is its own run,
    which writes no field, followed by the page's answer to the move it ends
    with, if it makes one: the model's focusout and focusin listeners run on
    the focus events of that move before the handler returns.  So the page
    size, the bound table, the closure in cleanup and the listener registry
    are the same before and after, for every event and state; focusedCell
    and prevFocusedCell are the same when the handler makes no move or the
    move raises no focus event, and otherwise are what those listeners leave.
    The calls are preventDefault, moveFocusBy, moveFocusIn and the index
    refresh of the focusin listener, and no other. *)
Theorem onKeydown_live_frame env w event :
  onKeydown_live event env w = withFocus env (onKeydown event w) /\
  final (onKeydown event w) = w /\
  page (final (snd (onKeydown_live event env w))) = page w /\
  _pageSize (this (final (snd (onKeydown_live event env w)))) = _pageSize (this w) /\
  _table (this (final (snd (onKeydown_live event env w)))) = _table (this w) /\
  cleanup (this (final (snd (onKeydown_live event env w)))) = cleanup (this w) /\
  (find isMove (calls (onKeydown event w)) = None ->
     onKeydown_live event env w = (env, onKeydown event w)) /\
  (forall c,
     find isMove (calls (onKeydown event w)) = Some c ->
     final (snd (onKeydown_live event env w)) =
       exec w (map noticeInput (snd (focusOf env c))) /\
     (snd (focusOf env c) = [] ->
        final (snd (onKeydown_live event env w)) = w)) /\
  forallb keydownCall_live (calls (snd (onKeydown_live event env w))) = true.
Proof.
  pose proof (onKeydown_live_run env w event) as Hrun.
  pose proof (onKeydown_shape w event) as Hshape.
  pose proof (proj1 (onKeydown_shape_final w event)) as Hfinal.
  split; [exact Hrun|]. split; [exact Hfinal|]. rewrite Hrun.
  assert (page (final (snd (withFocus env (onKeydown event w)))) = page w /\
          _pageSize (this (final (snd (withFocus env (onKeydown event w))))) =
            _pageSize (this w) /\
          _table (this (final (snd (withFocus env (onKeydown event w))))) =
            _table (this w) /\
          cleanup (this (final (snd (withFocus env (onKeydown event w))))) =
            cleanup (this w) /\
          forallb keydownCall_live
            (calls (snd (withFocus env (onKeydown event w)))) = true)
    as (Hp & Hs & Ht & Hc & Hcalls).
  { destruct (focusedCell (this w)) as [from|].
    - destruct (withFocus_shape env w from _ Hshape) as (? & ? & ? & ? & ? & _).
      repeat split; assumption.
    - unfold untouched in Hshape. rewrite Hshape. cbn. repeat split. }
  split; [exact Hp|]. split; [exact Hs|]. split; [exact Ht|].
  split; [exact Hc|]. split; [|split; [|exact Hcalls]].
  - intros Hnone. unfold withFocus. rewrite Hnone. reflexivity.
  - intros c Hsome. unfold withFocus. rewrite Hsome. cbn [snd final].
    rewrite Hfinal, deliver_final. split; [reflexivity|].
    intros Hsilent. rewrite Hsilent. reflexivity.
Qed.

(** ** The mutation handler with the page's answer *)

Lemma reconcile_keeps t nodes : forall env w,
  completion (snd (reconcile t nodes env w)) = Normal tt /\
  page (final (snd (reconcile t nodes env w))) = page w /\
  _table (this (final (snd (reconcile t nodes env w)))) = _table (this w) /\
  (prevFocusedCell (this w) <> None ->
   prevFocusedCell (this (final (snd (reconcile t nodes env w)))) <> None).
Proof.
  induction nodes as [|n rest IH]; intros env w; cbn [reconcile].
  - repeat split. intros H. exact H.
  - destruct (prevFocusedCell (this w)) as [prev|] eqn:Hprev;
      [|repeat split; intros H; exfalso; apply H; reflexivity].
    destruct (containsOrEqual n (element prev)).
    + cbn [snd final completion].
      set (c := MoveFocusBy t prev {| y := Num 0; x := Num 0 |}).
      destruct (deliver_keeps (snd (focusOf env c)) w) as (Hp & _ & Ht & _ & Hkeep).
      destruct (IH (fst (focusOf env c)) (final (deliver (snd (focusOf env c)) w)))
        as (_ & Hp' & Ht' & Hkeep').
      rewrite Hp', Ht', Hp, Ht. repeat split.
      intros _. apply Hkeep', Hkeep. rewrite Hprev. discriminate.
    + destruct (IH env w) as (Hc & Hp & Ht & Hkeep).
      repeat split; try assumption. intros _. apply Hkeep. rewrite Hprev.
      discriminate.
Qed.

Lemma reconcile_app t l1 l2 : forall env w,
  prevFocusedCell (this w) <> None ->
  reconcile t (l1 ++ l2) env w =
    (fst (reconcile t l2 (fst (reconcile t l1 env w))
            (final (snd (reconcile t l1 env w)))),
     {| final :=
          final (snd (reconcile t l2 (fst (reconcile t l1 env w))
                        (final (snd (reconcile t l1 env w)))));
        calls :=
          calls (snd (reconcile t l1 env w))
          ++ calls (snd (reconcile t l2 (fst (reconcile t l1 env w))
                           (final (snd (reconcile t l1 env w)))));
        completion := Normal tt |}).
Proof.
  induction l1 as [|n rest IH]; intros env w Hprev.
  - cbn [app reconcile fst snd final calls].
    destruct (reconcile_keeps t l2 env w) as (Hc & _).
    rewrite <- Hc. apply eq_sym, result_eta.
  - cbn [app reconcile].
    destruct (prevFocusedCell (this w)) as [prev|] eqn:Hp; [|contradiction].
    destruct (containsOrEqual n (element prev)).
    + set (c := MoveFocusBy t prev {| y := Num 0; x := Num 0 |}).
      rewrite IH.
      * cbn [fst snd final calls app]. rewrite <- app_assoc. reflexivity.
      * apply (deliver_keeps (snd (focusOf env c)) w). rewrite Hp. discriminate.
    + apply IH. rewrite Hp. discriminate.
Qed.

Lemma onRemovedNode_live_run env w prev t removedNode :
  prevFocusedCell (this w) = Some prev ->
  _table (this w) = Some t ->
  onRemovedNode_live removedNode env w = reconcile t [removedNode] env w.
Proof.
  intros Hprev Htable. unfold onRemovedNode_live. cbn [reconcile].
  rewrite bindL_getThis, Hprev.
  destruct (containsOrEqual removedNode (element prev)); [|reflexivity].
  rewrite (bindL_lift _ _ env w w [] t (table_bound w t Htable)).
  rewrite bindL_getThis, Hprev.
  unfold moveFocusBy_live, applyFocus. cbn [fst snd final calls completion app].
  rewrite app_nil_r. reflexivity.
Qed.

Lemma forOfL_removedNodes t nodes : forall env w,
  prevFocusedCell (this w) <> None ->
  _table (this w) = Some t ->
  forOfL nodes onRemovedNode_live env w = reconcile t nodes env w.
Proof.
  induction nodes as [|n rest IH]; intros env w Hprev Htable; [reflexivity|].
  destruct (prevFocusedCell (this w)) as [prev|] eqn:Hp; [|contradiction].
  change (n :: rest) with ([n] ++ rest).
  rewrite (reconcile_app t [n] rest env w) by (rewrite Hp; discriminate).
  rewrite <- (onRemovedNode_live_run env w prev t n Hp Htable).
  cbn [app forOfL]. unfold bindL at 1.
  pose proof (onRemovedNode_live_run env w prev t n Hp Htable) as Hrun.
  destruct (reconcile_keeps t [n] env w) as (Hc & _ & Ht & Hkeep).
  rewrite <- Hrun in Hc, Ht, Hkeep. rewrite Hc.
  rewrite IH.
  - destruct (reconcile_keeps t rest (fst (onRemovedNode_live n env w))
                (final (snd (onRemovedNode_live n env w)))) as (Hc' & _).
    rewrite Hc'. reflexivity.
  - apply Hkeep. rewrite Hp. discriminate.
  - rewrite Ht. exact Htable.
Qed.

Lemma forOfL_records t mutationRecords : forall env w,
  prevFocusedCell (this w) <> None ->
  _table (this w) = Some t ->
  forOfL mutationRecords
    (fun record =>
       match type record with
       | childList => forOfL (removedNodes record) onRemovedNode_live
       | _ => retL tt
       end) env w =
  reconcile t (removedOf mutationRecords) env w.
Proof.
  induction mutationRecords as [|record rest IH]; intros env w Hprev Htable;
    [reflexivity|].
  cbn [forOfL]. unfold removedOf. cbn [filter]. unfold isChildList at 1.
  unfold bindL at 1.
  destruct (type record); cbn [flat_map];
    try (cbn [retL lift ret snd fst completion final calls app];
         rewrite (IH env w Hprev Htable); apply result_eta).
  rewrite (forOfL_removedNodes t _ env w Hprev Htable).
  fold (removedOf rest).
  rewrite (reconcile_app t (removedNodes record) (removedOf rest) env w Hprev).
  destruct (reconcile_keeps t (removedNodes record) env w) as (Hc & _ & Ht & Hkeep).
  rewrite Hc. rewrite IH.
  - destruct (reconcile_keeps t (removedOf rest)
                (fst (reconcile t (removedNodes record) env w))
                (final (snd (reconcile t (removedNodes record) env w))))
      as (Hc' & _).
    rewrite Hc'. reflexivity.
  - exact (Hkeep Hprev).
  - rewrite Ht. exact Htable.
Qed.

Lemma onMutation_live_run env w mutationRecords prev t :
  prevFocusedCell (this w) = Some prev ->
  _table (this w) = Some t ->
  onMutation_live mutationRecords env w =
    (fst (reconcile t (removedOf mutationRecords) env w),
     {| final := final (snd (reconcile t (removedOf mutationRecords) env w));
        calls :=
          calls (snd (reconcile t (removedOf mutationRecords) env w))
          ++ [UpdateTableIndices t
                (nullish
                   (focusedCell
                      (this (final (snd (reconcile t (removedOf mutationRecords) env w)))))
                   (prevFocusedCell
                      (this (final (snd (reconcile t (removedOf mutationRecords) env w))))))];
        completion := Normal tt |}).
Proof.
  intros Hprev Htable. unfold onMutation_live.
  rewrite bindL_getThis, Hprev. unfold bindL at 1.
  assert (prevFocusedCell (this w) <> None) as Hset by (rewrite Hprev; discriminate).
  rewrite (forOfL_records t mutationRecords env w Hset Htable).
  destruct (reconcile_keeps t (removedOf mutationRecords) env w)
    as (Hc & _ & Ht & _).
  rewrite Hc.
  set (r := reconcile t (removedOf mutationRecords) env w) in *.
  assert (_table (this (final (snd r))) = Some t) as Htable'
    by (rewrite Ht; exact Htable).
  rewrite (bindL_lift _ _ (fst r) (final (snd r)) (final (snd r)) [] t
             (table_bound _ t Htable')).
  rewrite bindL_getThis. unfold lift, updateTableIndices, external.
  cbn [fst snd final calls completion app].
  destruct (final (snd r)) as [m d]. reflexivity.
Qed.

Lemma reconcile_silent t prev nodes :
  silent ->
  forall env w,
    prevFocusedCell (this w) = Some prev ->
    snd (reconcile t nodes env w) =
      {| final := w;
         calls := map (fun _ => MoveFocusBy t prev zeroDelta)
                    (filter (fun removedNode =>
                               containsOrEqual removedNode (element prev)) nodes);
         completion := Normal tt |}.
Proof.
  intros Hsilent. induction nodes as [|n rest IH]; intros env w Hprev;
    [reflexivity|].
  cbn [reconcile filter]. rewrite Hprev.
  destruct (containsOrEqual n (element prev)); [|apply IH; exact Hprev].
  cbn [snd map]. rewrite Hsilent. cbn [deliver forOf ret final calls app].
  rewrite (IH _ w Hprev). reflexivity.
Qed.

(** On a page that raises no focus event, the handler with the page's
    answer does what its own calls and writes give. *)
Lemma onMutation_live_silent env w mutationRecords :
  silent ->
  prevFocusedCell (this w) = None \/ _table (this w) <> None ->
  snd (onMutation_live mutationRecords env w) = onMutation mutationRecords w.
Proof.
  intros Hsilent Hbound.
  destruct (prevFocusedCell (this w)) as [prev|] eqn:Hprev.
  - destruct (_table (this w)) as [t|] eqn:Htable;
      [|destruct Hbound as [H|H]; [discriminate H | contradiction]].
    rewrite (onMutation_live_run env w mutationRecords prev t Hprev Htable).
    rewrite (onMutation_run w mutationRecords prev t Hprev Htable).
    cbn [snd].
    rewrite (reconcile_silent t prev (removedOf mutationRecords) Hsilent env w Hprev).
    cbn [final calls]. unfold nullish. rewrite Hprev. reflexivity.
  - unfold onMutation_live, onMutation.
    rewrite bindL_getThis, bind_getThis, Hprev. reflexivity.
Qed.

(** C5: a mutation batch does nothing while prevFocusedCell is null.  With
    a previous cell and the table bound, the handler goes through the
    removed nodes of the child-list records in batch order and, for every
    node that contains or equals the element of prevFocusedCell, issues a
    zero-delta move from prevFocusedCell; the field is read when the node's
    turn comes, so after the focus listeners have run on the events of the
    moves before it.  After all records it refreshes the index metadata from
    focusedCell if there is one and from prevFocusedCell if not, as the two
    fields are then, and completes.  On a page that raises no focus event on
    these moves, that is one move from the cell held on entry for every
    removed node containing its element, the refresh is anchored at the
    cells held on entry, and no field changes. *)
Theorem onMutation_live_reconciles env w mutationRecords :
  (prevFocusedCell (this w) = None ->
     onMutation_live mutationRecords env w =
       (env, {| final := w; calls := []; completion := Normal tt |})) /\
  (forall prev t,
     prevFocusedCell (this w) = Some prev ->
     _table (this w) = Some t ->
     let r := reconcile t (removedOf mutationRecords) env w in
     onMutation_live mutationRecords env w =
       (fst r,
        {| final := final (snd r);
           calls :=
             calls (snd r)
             ++ [UpdateTableIndices t
                   match focusedCell (this (final (snd r))) with
                   | Some cell => Some cell
                   | None => prevFocusedCell (this (final (snd r)))
                   end];
           completion := Normal tt |})) /\
  (silent ->
   forall prev t,
     prevFocusedCell (this w) = Some prev ->
     _table (this w) = Some t ->
     snd (onMutation_live mutationRecords env w) =
       {| final := w;
          calls :=
            map (fun _ => MoveFocusBy t prev zeroDelta)
                (removalsOf mutationRecords prev)
            ++ [UpdateTableIndices t
                  match focusedCell (this w) with
                  | Some cell => Some cell
                  | None => Some prev
                  end];
          completion := Normal tt |}).
Proof.
  split; [|split].
  - intros Hprev. unfold onMutation_live. rewrite bindL_getThis, Hprev.
    reflexivity.
  - intros prev t Hprev Htable. cbn zeta.
    exact (onMutation_live_run env w mutationRecords prev t Hprev Htable).
  - intros Hsilent prev t Hprev Htable.
    rewrite (onMutation_live_run env w mutationRecords prev t Hprev Htable).
    cbn [snd].
    rewrite (reconcile_silent t prev (removedOf mutationRecords) Hsilent env w Hprev).
    cbn [final calls]. unfold nullish. rewrite Hprev. reflexivity.
Qed.

End GridNavigationModel.

(** ** Concrete runs on the small page *)

(** The worlds of [Demo] are worlds the model gets to. *)
Example Demo_worlds_run :
  exec nat Demo.findFocusinCell Demo.containsOrEqual KeyCode.dom initial
    [Init nat 1%nat; Update nat 5; Focusin nat 10%nat] = Demo.atPlainCell /\
  exec nat Demo.findFocusinCell Demo.containsOrEqual KeyCode.dom initial
    [Init nat 1%nat; Update nat 5; Focusin nat 21%nat] = Demo.atInsideWidget /\
  exec nat Demo.findFocusinCell Demo.containsOrEqual KeyCode.dom initial
    [Init nat 1%nat; Update nat 5; Focusin nat 10%nat; Focusout nat] = Demo.focusLeft /\
  exec nat Demo.findFocusinCell Demo.containsOrEqual KeyCode.dom initial
    [Init nat 1%nat; Update nat 5; Focusin nat 10%nat; Destroy nat] = Demo.detachedWorld.
Proof. repeat split; vm_compute; reflexivity. Qed.

Lemma onKeydown_cell_level_commands_witness :
  KeyCode.wf KeyCode.dom = true /\
  focusedCell (this Demo.atPlainCell) = Some Demo.plainCell /\
  element Demo.plainCell = cellElement Demo.plainCell /\
  _table (this Demo.atPlainCell) = Some 1%nat /\
  movesBy (onKeydown KeyCode.dom (pressed 38) Demo.atPlainCell)
    Demo.atPlainCell 1%nat Demo.plainCell {| y := Num (-1); x := Num 0 |} /\
  movesBy (onKeydown KeyCode.dom (pressed 34) Demo.atPlainCell)
    Demo.atPlainCell 1%nat Demo.plainCell {| y := Num 5; x := Num 0 |} /\
  movesBy (onKeydown KeyCode.dom (ctrlPressed 35) Demo.atPlainCell)
    Demo.atPlainCell 1%nat Demo.plainCell
    {| y := POSITIVE_INFINITY; x := POSITIVE_INFINITY |}.
Proof.
  destruct (onKeydown_cell_level_commands KeyCode.dom Demo.atPlainCell
              Demo.plainCell 1%nat eq_refl eq_refl eq_refl eq_refl)
    as (Hup & _ & _ & _ & _ & Hpd & _ & _ & _ & Hce).
  exact (conj eq_refl (conj eq_refl (conj eq_refl (conj eq_refl
           (conj Hup (conj Hpd Hce)))))).
Defined.

Lemma onKeydown_inside_widget_witness :
  KeyCode.wf KeyCode.dom = true /\
  focusedCell (this Demo.atInsideWidget) = Some Demo.insideWidget /\
  widget Demo.insideWidget = true /\
  element Demo.insideWidget <> cellElement Demo.insideWidget /\
  movesBy (onKeydown KeyCode.dom (pressed 27) Demo.atInsideWidget)
    Demo.atInsideWidget 1%nat Demo.insideWidget zeroDelta /\
  movesBy (onKeydown KeyCode.dom (pressed 113) Demo.atInsideWidget)
    Demo.atInsideWidget 1%nat Demo.insideWidget zeroDelta /\
  untouched (onKeydown KeyCode.dom (pressed 40) Demo.atInsideWidget)
    Demo.atInsideWidget /\
  untouched (onKeydown KeyCode.dom (ctrlPressed 27) Demo.atInsideWidget)
    Demo.atInsideWidget.
Proof.
  assert (element Demo.insideWidget <> cellElement Demo.insideWidget) as Hne
    by discriminate.
  destruct (onKeydown_inside_widget KeyCode.dom Demo.atInsideWidget
              Demo.insideWidget 1%nat eq_refl eq_refl eq_refl Hne eq_refl)
    as (Hesc & Hf2 & Hother).
  assert (untouched (onKeydown KeyCode.dom (pressed 40) Demo.atInsideWidget)
            Demo.atInsideWidget) as Hdown
    by (apply Hother; [unfold Z.le; cbn; discriminate | discriminate | discriminate]).
  assert (untouched (onKeydown KeyCode.dom (ctrlPressed 27) Demo.atInsideWidget)
            Demo.atInsideWidget) as Hctrl
    by (apply Hother; [unfold Z.le; cbn; discriminate | discriminate | discriminate]).
  exact (conj eq_refl (conj eq_refl (conj eq_refl (conj Hne
           (conj Hesc (conj Hf2 (conj Hdown Hctrl))))))).
Defined.

Lemma onKeydown_modifiers_witness :
  focusedCell (this Demo.atPlainCell) = Some Demo.plainCell /\
  onKeydown KeyCode.dom (ctrlPressed 36) Demo.atPlainCell =
    keydownCommand KeyCode.dom Demo.plainCell (-36) Demo.atPlainCell /\
  untouched
    (onKeydown KeyCode.dom
       {| keyCode := 40; ctrlKey := false; altKey := false;
          shiftKey := true; metaKey := false |} Demo.atPlainCell)
    Demo.atPlainCell /\
  untouched
    (onKeydown KeyCode.dom
       {| keyCode := 36; ctrlKey := true; altKey := true;
          shiftKey := false; metaKey := false |} Demo.atPlainCell)
    Demo.atPlainCell.
Proof.
  split; [reflexivity|]. split; [|split].
  - apply (proj1 (onKeydown_modifiers KeyCode.dom Demo.atPlainCell
                    Demo.plainCell (ctrlPressed 36) eq_refl));
      reflexivity.
  - apply (proj2 (onKeydown_modifiers KeyCode.dom Demo.atPlainCell
                    Demo.plainCell _ eq_refl)).
    left. split; reflexivity.
  - apply (proj2 (onKeydown_modifiers KeyCode.dom Demo.atPlainCell
                    Demo.plainCell _ eq_refl)).
    right. unfold Z.le. cbn. discriminate.
Defined.

Lemma onKeydown_preventDefault_witness :
  KeyCode.wf KeyCode.dom = true /\
  movesIn (onKeydown KeyCode.dom (pressed 13) Demo.atPlainCell)
    Demo.atPlainCell Demo.plainCell /\
  untouched (onKeydown KeyCode.dom (pressed 27) Demo.atPlainCell)
    Demo.atPlainCell /\
  movesIn (onKeydown KeyCode.dom (pressed 113) Demo.atPlainCell)
    Demo.atPlainCell Demo.plainCell /\
  untouched (onKeydown KeyCode.dom (pressed 13) Demo.atInsideWidget)
    Demo.atInsideWidget /\
  movesBy (onKeydown KeyCode.dom (pressed 27) Demo.atInsideWidget)
    Demo.atInsideWidget 1%nat Demo.insideWidget zeroDelta.
Proof.
  destruct (onKeydown_preventDefault KeyCode.dom Demo.atPlainCell
              Demo.plainCell 1%nat eq_refl eq_refl eq_refl)
    as (_ & Hon & _).
  destruct (Hon eq_refl) as (Henter & Hesc & Hf2).
  destruct (onKeydown_preventDefault KeyCode.dom Demo.atInsideWidget
              Demo.insideWidget 1%nat eq_refl eq_refl eq_refl)
    as (_ & _ & Hoff).
  assert (element Demo.insideWidget <> cellElement Demo.insideWidget) as Hne
    by discriminate.
  destruct (Hoff Hne) as (Henter' & Hesc' & _).
  exact (conj eq_refl (conj Henter (conj Hesc (conj Hf2 (conj Henter' Hesc'))))).
Defined.

Lemma onFocusin_tracks_witness :
  Demo.findFocusinCell 99%nat = None /\
  untouched (onFocusin nat Demo.findFocusinCell 99%nat Demo.atPlainCell)
    Demo.atPlainCell /\
  Demo.findFocusinCell 21%nat = Some Demo.insideWidget /\
  onFocusin nat Demo.findFocusinCell 21%nat Demo.atPlainCell =
    {| final := Demo.atInsideWidget;
       calls := [UpdateTableIndices 1%nat (Some Demo.insideWidget)];
       completion := Normal tt |}.
Proof.
  split; [reflexivity|]. split; [|split; [reflexivity|]].
  - exact (proj1 (onFocusin_tracks nat Demo.findFocusinCell Demo.atPlainCell
                    99%nat) eq_refl).
  - exact (proj2 (onFocusin_tracks nat Demo.findFocusinCell Demo.atPlainCell
                    21%nat) Demo.insideWidget 1%nat eq_refl eq_refl).
Defined.

Lemma prevFocusedCell_kept_witness :
  prevFocusedCell (this Demo.atPlainCell) <> None /\
  prevFocusedCell
    (this (step nat Demo.findFocusinCell Demo.containsOrEqual KeyCode.dom
             Demo.atPlainCell (Focusout nat))) <> None /\
  prevFocusedCell
    (this (exec nat Demo.findFocusinCell Demo.containsOrEqual KeyCode.dom
             initial [Init nat 1%nat; Focusin nat 99%nat; Focusout nat])) = None.
Proof.
  assert (prevFocusedCell (this Demo.atPlainCell) <> None) as Hset
    by discriminate.
  destruct (prevFocusedCell_kept nat Demo.findFocusinCell Demo.containsOrEqual
              KeyCode.dom Demo.atPlainCell (Focusout nat)
              [Init nat 1%nat; Focusin nat 99%nat; Focusout nat])
    as (_ & Hkeep & _ & Hnull).
  split; [exact Hset|]. split; [exact (Hkeep Hset)|].
  apply (proj2 Hnull). reflexivity.
Defined.

Lemma table_getter_witness :
  _table (this initial) = None /\
  table initial =
    {| final := initial; calls := [];
       completion := Throw invariantViolation |} /\
  completion
    (table (exec nat Demo.findFocusinCell Demo.containsOrEqual KeyCode.dom
              initial [Update nat 3; Destroy nat; Focusout nat])) =
    Throw invariantViolation /\
  (exists t', completion
     (table (step nat Demo.findFocusinCell Demo.containsOrEqual KeyCode.dom
               Demo.atPlainCell (Destroy nat))) = Normal t').
Proof.
  destruct (table_getter nat Demo.findFocusinCell Demo.containsOrEqual
              KeyCode.dom initial 1%nat (Destroy nat)
              [Update nat 3; Destroy nat; Focusout nat])
    as (Hthrow & Hbefore & _ & _).
  destruct (table_getter nat Demo.findFocusinCell Demo.containsOrEqual
              KeyCode.dom Demo.atPlainCell 1%nat (Destroy nat) [])
    as (_ & _ & _ & Hstays).
  split; [reflexivity|]. split; [exact (Hthrow eq_refl)|].
  split; [exact (Hbefore eq_refl) | exact (Hstays eq_refl)].
Defined.

(** C8, against the claim as written: after init on table 1 and destroy,
    the getter does not fail, it returns table 1. *)
Lemma table_after_destroy_returns :
  exec nat Demo.findFocusinCell Demo.containsOrEqual KeyCode.dom initial
    [Init nat 1%nat; Update nat 5; Focusin nat 10%nat; Destroy nat] =
    Demo.detachedWorld /\
  table Demo.detachedWorld =
    {| final := Demo.detachedWorld; calls := []; completion := Normal 1%nat |} /\
  ~ (exists message, completion (table Demo.detachedWorld) = Throw message).
Proof.
  split; [vm_compute; reflexivity|]. split; [reflexivity|].
  intros [message H]. discriminate H.
Qed.

Lemma destroy_twice_witness :
  cleanup (this initial) = cleanup_empty /\
  untouched (destroy initial) initial.
Proof.
  split; [reflexivity|].
  exact (proj1 (destroy_twice nat Demo.findFocusinCell Demo.containsOrEqual
                  KeyCode.dom initial 1%nat) eq_refl).
Defined.

(** C9, against the claim as written: after init on table 1 and a first
    destroy, the closure in cleanup is still the one init built, and a
    second destroy makes the four calls again. *)
Lemma second_destroy_calls_again :
  exec nat Demo.findFocusinCell Demo.containsOrEqual KeyCode.dom initial
    [Init nat 1%nat; Update nat 5; Focusin nat 10%nat; Destroy nat] =
    Demo.detachedWorld /\
  cleanup (this Demo.detachedWorld) <> cleanup_empty /\
  destroy Demo.detachedWorld =
    {| final := Demo.detachedWorld;
       calls := [RemoveEventListener 1%nat focusin OnFocusin;
                 RemoveEventListener 1%nat focusout OnFocusout;
                 RemoveEventListener 1%nat keydown OnKeydown;
                 Disconnect 0%nat];
       completion := Normal tt |} /\
  ~ untouched (destroy Demo.detachedWorld) Demo.detachedWorld.
Proof.
  split; [vm_compute; reflexivity|]. split; [discriminate|].
  split; [vm_compute; reflexivity|].
  unfold untouched. intros H.
  assert (calls (destroy Demo.detachedWorld) = []) as E by (rewrite H; reflexivity).
  vm_compute in E. discriminate E.
Qed.

(** ** Concrete runs of the lifecycle and of the other keys *)

Lemma init_destroy_round_trip_witness :
  registered (1%nat, focusin, OnFocusin) (page initial) = false /\
  freshObserver (page initial) = true /\
  completion
    (destroy (step nat Demo.findFocusinCell Demo.containsOrEqual KeyCode.dom
                initial (Init nat 1%nat))) = Normal tt /\
  listeners
    (page (step nat Demo.findFocusinCell Demo.containsOrEqual KeyCode.dom
             (step nat Demo.findFocusinCell Demo.containsOrEqual KeyCode.dom
                initial (Init nat 1%nat)) (Destroy nat))) = [] /\
  observing
    (page (step nat Demo.findFocusinCell Demo.containsOrEqual KeyCode.dom
             (step nat Demo.findFocusinCell Demo.containsOrEqual KeyCode.dom
                initial (Init nat 1%nat)) (Destroy nat))) = [].
Proof.
  exact (conj eq_refl (conj eq_refl
           (init_destroy_round_trip nat Demo.findFocusinCell
              Demo.containsOrEqual KeyCode.dom initial 1%nat
              eq_refl eq_refl eq_refl eq_refl))).
Defined.

Lemma init_twice_leaks_witness :
  1%nat <> 2%nat /\
  registered (1%nat, keydown, OnKeydown)
    (page (step nat Demo.findFocusinCell Demo.containsOrEqual KeyCode.dom
             (step nat Demo.findFocusinCell Demo.containsOrEqual KeyCode.dom
                (step nat Demo.findFocusinCell Demo.containsOrEqual KeyCode.dom
                   initial (Init nat 1%nat)) (Init nat 2%nat)) (Destroy nat))) = true.
Proof.
  assert (1%nat <> 2%nat) as Hne by discriminate.
  destruct (init_twice_leaks nat Demo.findFocusinCell Demo.containsOrEqual
              KeyCode.dom initial 1%nat 2%nat) as (_ & _ & Hleak).
  destruct (Hleak Hne) as (_ & _ & Hkeydown).
  exact (conj Hne Hkeydown).
Defined.

Lemma reachable_completes_witness :
  reachable nat Demo.findFocusinCell Demo.containsOrEqual KeyCode.dom
    (step nat Demo.findFocusinCell Demo.containsOrEqual KeyCode.dom
       (step nat Demo.findFocusinCell Demo.containsOrEqual KeyCode.dom
          initial (Init nat 1%nat)) (Focusin nat 10%nat)) /\
  completion
    (handle nat Demo.findFocusinCell Demo.containsOrEqual KeyCode.dom
       (Keydown nat (pressed 40))
       (step nat Demo.findFocusinCell Demo.containsOrEqual KeyCode.dom
          (step nat Demo.findFocusinCell Demo.containsOrEqual KeyCode.dom
             initial (Init nat 1%nat)) (Focusin nat 10%nat))) = Normal tt.
Proof.
  assert (reachable nat Demo.findFocusinCell Demo.containsOrEqual KeyCode.dom
            (step nat Demo.findFocusinCell Demo.containsOrEqual KeyCode.dom
               (step nat Demo.findFocusinCell Demo.containsOrEqual KeyCode.dom
                  initial (Init nat 1%nat)) (Focusin nat 10%nat))) as Hreach.
  { apply reachable_step; [apply reachable_step; [apply reachable_initial|]|];
      reflexivity. }
  exact (conj Hreach
           (reachable_completes nat Demo.findFocusinCell Demo.containsOrEqual
              KeyCode.dom _ (Keydown nat (pressed 40)) Hreach eq_refl)).
Defined.

Lemma onKeydown_ctrl_ignored_witness :
  KeyCode.wf KeyCode.dom = true /\
  In 38 (unmodifiedOnly KeyCode.dom) /\
  untouched (onKeydown KeyCode.dom (ctrlPressed 38) Demo.atPlainCell)
    Demo.atPlainCell.
Proof.
  exact (conj eq_refl (conj (or_introl eq_refl)
           (onKeydown_ctrl_ignored KeyCode.dom Demo.atPlainCell 38
              eq_refl (or_introl eq_refl)))).
Defined.

Lemma onKeydown_unknown_key_witness :
  KeyCode.wf KeyCode.dom = true /\
  ~ In 65 (KeyCode.codes KeyCode.dom) /\
  untouched (onKeydown KeyCode.dom (pressed 65) Demo.atPlainCell)
    Demo.atPlainCell /\
  untouched (onKeydown KeyCode.dom (ctrlPressed 65) Demo.atPlainCell)
    Demo.atPlainCell.
Proof.
  assert (~ In 65 (KeyCode.codes KeyCode.dom)) as Hout.
  { intros H. cbn in H.
    repeat (destruct H as [H|H]; [discriminate H|]). exact H. }
  assert (0 <= 65) as Hk by (unfold Z.le; cbn; discriminate).
  exact (conj eq_refl (conj Hout
           (conj (onKeydown_unknown_key KeyCode.dom Demo.atPlainCell
                    (pressed 65) eq_refl Hk Hout)
                 (onKeydown_unknown_key KeyCode.dom Demo.atPlainCell
                    (ctrlPressed 65) eq_refl Hk Hout)))).
Defined.

Lemma update_then_page_keys_witness :
  KeyCode.wf KeyCode.dom = true /\
  focusedCell (this Demo.atPlainCell) = Some Demo.plainCell /\
  movesBy
    (onKeydown KeyCode.dom (pressed 34)
       (step nat Demo.findFocusinCell Demo.containsOrEqual KeyCode.dom
          Demo.atPlainCell (Update nat 7)))
    (step nat Demo.findFocusinCell Demo.containsOrEqual KeyCode.dom
       Demo.atPlainCell (Update nat 7))
    1%nat Demo.plainCell {| y := Num 7; x := Num 0 |}.
Proof.
  exact (conj eq_refl (conj eq_refl
           (proj2 (update_then_page_keys nat Demo.findFocusinCell
                     Demo.containsOrEqual KeyCode.dom Demo.atPlainCell 7
                     Demo.plainCell 1%nat eq_refl eq_refl eq_refl eq_refl)))).
Defined.

Lemma onMutation_spares_focus_witness :
  keepsNode Demo.containsOrEqual
    [ {| type := childList; removedNodes := [3%nat] |};
      {| type := attributes; removedNodes := [10%nat] |} ]
    (element Demo.plainCell) = true /\
  onMutation Demo.containsOrEqual
    [ {| type := childList; removedNodes := [3%nat] |};
      {| type := attributes; removedNodes := [10%nat] |} ] Demo.focusLeft =
    {| final := Demo.focusLeft;
       calls := [UpdateTableIndices 1%nat (Some Demo.plainCell)];
       completion := Normal tt |} /\
  onMutation Demo.containsOrEqual [] Demo.focusLeft =
    {| final := Demo.focusLeft;
       calls := [UpdateTableIndices 1%nat (Some Demo.plainCell)];
       completion := Normal tt |}.
Proof.
  exact (conj eq_refl
           (conj (onMutation_spares_focus Demo.containsOrEqual Demo.focusLeft
                    [ {| type := childList; removedNodes := [3%nat] |};
                      {| type := attributes; removedNodes := [10%nat] |} ]
                    Demo.plainCell 1%nat eq_refl eq_refl eq_refl)
                 (onMutation_spares_focus Demo.containsOrEqual Demo.focusLeft
                    [] Demo.plainCell 1%nat eq_refl eq_refl eq_refl))).
Defined.

Lemma onFocusin_latest_wins_witness :
  Demo.findFocusinCell 21%nat = Some Demo.insideWidget /\
  step nat Demo.findFocusinCell Demo.containsOrEqual KeyCode.dom
    (step nat Demo.findFocusinCell Demo.containsOrEqual KeyCode.dom
       Demo.focusLeft (Focusin nat 10%nat)) (Focusin nat 21%nat) =
  step nat Demo.findFocusinCell Demo.containsOrEqual KeyCode.dom
    Demo.focusLeft (Focusin nat 21%nat).
Proof.
  exact (conj eq_refl
           (onFocusin_latest_wins nat Demo.findFocusinCell Demo.containsOrEqual
              KeyCode.dom Demo.focusLeft 10%nat 21%nat Demo.insideWidget eq_refl)).
Defined.

Lemma handlers_keep_binding_witness :
  isLifecycle nat (Focusin nat 21%nat) = false /\
  page (step nat Demo.findFocusinCell Demo.containsOrEqual KeyCode.dom
          Demo.atPlainCell (Focusin nat 21%nat)) = page Demo.atPlainCell /\
  _table (this (step nat Demo.findFocusinCell Demo.containsOrEqual KeyCode.dom
                  Demo.atPlainCell (Focusin nat 21%nat))) =
    _table (this Demo.atPlainCell) /\
  cleanup (this (step nat Demo.findFocusinCell Demo.containsOrEqual KeyCode.dom
                   Demo.atPlainCell (Focusin nat 21%nat))) =
    cleanup (this Demo.atPlainCell).
Proof.
  exact (conj eq_refl
           (handlers_keep_binding nat Demo.findFocusinCell Demo.containsOrEqual
              KeyCode.dom Demo.atPlainCell (Focusin nat 21%nat) eq_refl)).
Defined.

Lemma onKeydown_plain_cell_commands_witness :
  KeyCode.wf KeyCode.dom = true /\
  widget Demo.linkInPlainCell = false /\
  element Demo.linkInPlainCell <> cellElement Demo.linkInPlainCell /\
  movesBy
    (onKeydown KeyCode.dom (pressed 39)
       (Demo.world (Some Demo.linkInPlainCell) (Some Demo.linkInPlainCell)))
    (Demo.world (Some Demo.linkInPlainCell) (Some Demo.linkInPlainCell))
    1%nat Demo.linkInPlainCell {| y := Num 0; x := Num 1 |} /\
  movesBy
    (onKeydown KeyCode.dom (ctrlPressed 36)
       (Demo.world (Some Demo.linkInPlainCell) (Some Demo.linkInPlainCell)))
    (Demo.world (Some Demo.linkInPlainCell) (Some Demo.linkInPlainCell))
    1%nat Demo.linkInPlainCell
    {| y := NEGATIVE_INFINITY; x := NEGATIVE_INFINITY |}.
Proof.
  assert (element Demo.linkInPlainCell <> cellElement Demo.linkInPlainCell) as Hne
    by discriminate.
  destruct (onKeydown_plain_cell_commands KeyCode.dom
              (Demo.world (Some Demo.linkInPlainCell) (Some Demo.linkInPlainCell))
              Demo.linkInPlainCell 1%nat eq_refl eq_refl eq_refl eq_refl)
    as (_ & _ & _ & Hright & _ & _ & _ & _ & Hhome & _).
  exact (conj eq_refl (conj eq_refl (conj Hne (conj Hright Hhome)))).
Defined.

(** ** Concrete runs with the page's answer *)

(** On the small page, cell 10 is removed twice over while the focus is
    outside the table.  The first removal moves from cell 10, the page puts
    the focus on cell 20, and the focusin listener makes cell 20 the
    previous cell; the second removal of cell 10 does not contain it, so no
    second move follows, and the refresh is anchored at cell 20. *)
Lemma onMutation_live_reconciles_witness :
  prevFocusedCell (this Demo.focusLeft) = Some Demo.plainCell /\
  _table (this Demo.focusLeft) = Some 1%nat /\
  onMutation_live nat Demo.findFocusinCell Demo.containsOrEqual Node Demo.focusOf
    Demo.removals 0%nat Demo.focusLeft =
    (20%nat,
     {| final := Demo.world (Some Demo.widgetCell) (Some Demo.widgetCell);
        calls := [MoveFocusBy 1%nat Demo.plainCell zeroDelta;
                  UpdateTableIndices 1%nat (Some Demo.widgetCell);
                  UpdateTableIndices 1%nat (Some Demo.widgetCell)];
        completion := Normal tt |}) /\
  onMutation_live nat Demo.findFocusinCell Demo.containsOrEqual Node Demo.focusOf
    Demo.removals 0%nat initial =
    (0%nat, {| final := initial; calls := []; completion := Normal tt |}) /\
  snd (onMutation_live nat Demo.findFocusinCell Demo.containsOrEqual unit
         (fun env _ => (env, [])) Demo.removals tt Demo.focusLeft) =
    {| final := Demo.focusLeft;
       calls := [MoveFocusBy 1%nat Demo.plainCell zeroDelta;
                 MoveFocusBy 1%nat Demo.plainCell zeroDelta;
                 UpdateTableIndices 1%nat (Some Demo.plainCell)];
       completion := Normal tt |}.
Proof.
  destruct (onMutation_live_reconciles nat Demo.findFocusinCell
              Demo.containsOrEqual KeyCode.dom Node Demo.focusOf 0%nat Demo.focusLeft
              Demo.removals) as (_ & Hrun & _).
  destruct (onMutation_live_reconciles nat Demo.findFocusinCell
              Demo.containsOrEqual KeyCode.dom Node Demo.focusOf 0%nat initial
              Demo.removals) as (Hnull & _ & _).
  destruct (onMutation_live_reconciles nat Demo.findFocusinCell
              Demo.containsOrEqual KeyCode.dom unit (fun env _ => (env, [])) tt
              Demo.focusLeft Demo.removals) as (_ & _ & Hsilent).
  exact (conj eq_refl (conj eq_refl
           (conj (Hrun Demo.plainCell 1%nat eq_refl eq_refl)
              (conj (Hnull eq_refl)
                 (Hsilent (fun _ _ => eq_refl) Demo.plainCell 1%nat
                    eq_refl eq_refl))))).
Defined.

(** C10, against the claim as written: Down is pressed on cell 10, the page
    puts the focus on cell 20 while moveFocusBy runs, and when the handler
    returns focusedCell and prevFocusedCell are cell 20, not cell 10. *)
Lemma onKeydown_live_moves_focus_slots :
  focusedCell (this Demo.atPlainCell) = Some Demo.plainCell /\
  onKeydown_live nat Demo.findFocusinCell KeyCode.dom Node Demo.focusOf
    (pressed 40) 10%nat Demo.atPlainCell =
    (20%nat,
     {| final := Demo.world (Some Demo.widgetCell) (Some Demo.widgetCell);
        calls := [PreventDefault;
                  MoveFocusBy 1%nat Demo.plainCell {| y := Num 1; x := Num 0 |};
                  UpdateTableIndices 1%nat (Some Demo.widgetCell)];
        completion := Normal tt |}) /\
  focusedCell
    (this (final (snd (onKeydown_live nat Demo.findFocusinCell KeyCode.dom Node
                         Demo.focusOf (pressed 40) 10%nat Demo.atPlainCell)))) <>
    focusedCell (this Demo.atPlainCell) /\
  prevFocusedCell
    (this (final (snd (onKeydown_live nat Demo.findFocusinCell KeyCode.dom Node
                         Demo.focusOf (pressed 40) 10%nat Demo.atPlainCell)))) <>
    prevFocusedCell (this Demo.atPlainCell).
Proof.
  split; [reflexivity|]. split; [vm_compute; reflexivity|].
  split; vm_compute; discriminate.
Qed.

Lemma onKeydown_live_frame_witness :
  find isMove (calls (onKeydown KeyCode.dom (pressed 40) Demo.atPlainCell)) =
    Some (MoveFocusBy 1%nat Demo.plainCell {| y := Num 1; x := Num 0 |}) /\
  final (snd (onKeydown_live nat Demo.findFocusinCell KeyCode.dom Node
                Demo.focusOf (pressed 40) 10%nat Demo.atPlainCell)) =
    Demo.world (Some Demo.widgetCell) (Some Demo.widgetCell) /\
  final (snd (onKeydown_live nat Demo.findFocusinCell KeyCode.dom Node
                Demo.focusOf (pressed 40) 20%nat Demo.atPlainCell)) =
    Demo.atPlainCell /\
  onKeydown_live nat Demo.findFocusinCell KeyCode.dom Node Demo.focusOf
    (pressed 65) 10%nat Demo.atPlainCell =
    (10%nat, onKeydown KeyCode.dom (pressed 65) Demo.atPlainCell).
Proof.
  destruct (onKeydown_live_frame nat Demo.findFocusinCell
              Demo.containsOrEqual KeyCode.dom Node Demo.focusOf 10%nat
              Demo.atPlainCell (pressed 40))
    as (_ & _ & _ & _ & _ & _ & _ & Hmove & _).
  destruct (onKeydown_live_frame nat Demo.findFocusinCell
              Demo.containsOrEqual KeyCode.dom Node Demo.focusOf 20%nat
              Demo.atPlainCell (pressed 40))
    as (_ & _ & _ & _ & _ & _ & _ & Hstay & _).
  destruct (onKeydown_live_frame nat Demo.findFocusinCell
              Demo.containsOrEqual KeyCode.dom Node Demo.focusOf 10%nat
              Demo.atPlainCell (pressed 65))
    as (_ & _ & _ & _ & _ & _ & Hnone & _).
  exact (conj eq_refl
           (conj (proj1 (Hmove _ eq_refl))
              (conj (proj2 (Hstay _ eq_refl) eq_refl) (Hnone eq_refl)))).
Defined.
